(** * ncmpcpp: start-up configuration (src/configuration.cpp)

    A shallow embedding of [expand_home], [xdg_config_home] and [configure]
    together with the properties of the start-up sequence: which source of
    a setting wins, which diagnostics are printed, how the process leaves
    [configure], and in which order the collaborators are called.

    Strings are byte strings ([string] is a list of 8-bit [ascii]), the
    process environment is a finite map from names to values, and the
    statement sequence of [configure] is written in a small state monad
    whose control flow has the five ways a C++ statement can end here:
    fall through, [return], [exit], a thrown exception, a failed [assert]. *)

From Stdlib Require Import ZArith Ascii String.
From stdpp Require Import base strings list gmap.

Local Open Scope string_scope.
Local Open Scope Z_scope.
Local Open Scope list_scope.

(** The line feed written ["\n"] in the source. *)
Definition nl : string := String "010"%char EmptyString.

Definition tilde : ascii := "~"%char.
Definition slash : ascii := "/"%char.

(** ** Path helpers *)

(** [s.back()] of a non-empty [std::string]; [None] on the empty string,
    where the source never calls it. *)
Fixpoint back (s : string) : option ascii :=
  match s with
  | EmptyString => None
  | String c EmptyString => Some c
  | String _ rest => back rest
  end.

(** The process environment as [getenv] sees it. *)
Abbreviation Env := (gmap string string).

Definition getenv (env : Env) (name : string) : option string := env !! name.

(** [xdg_config_home()]: the value of XDG_CONFIG_HOME with a trailing
    separator added when it is non-empty and lacks one, and the fixed
    fallback when the variable is unset. *)
Definition xdg_config_home (env : Env) : string :=
  match getenv env "XDG_CONFIG_HOME" with
  | None => "~/.config/"
  | Some result =>
      match back result with
      | Some c => if decide (c = slash) then result else result +:+ "/"
      | None => result
      end
  end.

(** [path.replace(0, 1, env_home)] guarded by
    [!path.empty() && path[0] == '~']. *)
Definition replace_home (home path : string) : string :=
  match path with
  | String c rest => if decide (c = tilde) then home +:+ rest else path
  | EmptyString => path
  end.

(** [expand_home]: [env_home] is the file-level pointer, [None] while it is
    still null.  The result is [None] when [assert(env_home != nullptr)]
    fails, otherwise the new content of [path]. *)
Definition expand_home (env_home : option string) (path : string) : option string :=
  match env_home with
  | None => None
  | Some home => Some (replace_home home path)
  end.

(** [path[0] == '~'] on a possibly empty path. *)
Definition starts_with_tilde (path : string) : bool :=
  match path with
  | String c _ => bool_decide (c = tilde)
  | EmptyString => false
  end.

(** [default_config_paths], the default value of [--config]. *)
Definition default_config_paths (env : Env) : list string :=
  [ "~/.ncmpcpp/config"; xdg_config_home env +:+ "ncmpcpp/config" ].

(** ** Data the start-up sequence works on *)

(** Modelled from the spec: the enumerated screen identifiers (screen_type.h
    is not part of the sources at hand).  The source names one member,
    [ScreenType::Unknown], the value the name table gives for a name it
    does not have; every other member is a [Screen] with its number. *)
Inductive ScreenType :=
| Unknown
| Screen (id : N).

#[global] Instance ScreenType_eq_dec : EqDecision ScreenType.
Proof. solve_decision. Defined.

(** The fields of the [Config] object that [configure] reads or writes,
    with the types the source uses them at (settings.h is not part of the
    sources at hand). *)
Record Configuration := mkConfiguration {
  ncmpcpp_directory : string;
  lyrics_directory : string;
  mpd_connection_timeout : Z;
  startup_screen_type : ScreenType;
  startup_slave_screen_type : ScreenType
}.

(** Modelled from the spec: the connection object [Mpd] (mpdpp.h is not part
    of the sources at hand) holds the host, the port and the timeout that
    the effective configuration publishes, and each setter stores its
    argument in the field of its name. *)
Record Connection := mkConnection {
  hostname : string;
  port : Z;
  timeout : Z
}.

Definition SetHostname (host : string) (c : Connection) : Connection :=
  mkConnection host (port c) (timeout c).
Definition SetPort (p : Z) (c : Connection) : Connection :=
  mkConnection (hostname c) p (timeout c).
Definition SetTimeout (t : Z) (c : Connection) : Connection :=
  mkConnection (hostname c) (port c) t.

(** [po::variables_map] after [po::store]: per option its value, and for
    the options the source asks, whether the value is the declared default
    ([defaulted()]).  [vm_screen] and [vm_slave_screen] are [None] exactly
    when [count] is 0; [vm_help] and [vm_version] tell whether [count] is
    positive. *)
Record variables_map := mkVariablesMap {
  vm_host : string;
  vm_host_defaulted : bool;
  vm_port : Z;
  vm_port_defaulted : bool;
  vm_config : list string;
  vm_ignore_config_errors : bool;
  vm_bindings : string;
  vm_bindings_defaulted : bool;
  vm_screen : option string;
  vm_slave_screen : option string;
  vm_help : bool;
  vm_version : bool
}.

(** The macros of config.h that select the lines of the version text. *)
Record config_h := mkConfigH {
  VERSION : string;
  HAVE_TAGLIB_H : bool;
  HAVE_CURL_CURL_H : bool;
  ENABLE_OUTPUTS : bool;
  ENABLE_VISUALIZER : bool;
  ENABLE_CLOCK : bool;
  HAVE_LANGINFO_H : bool;
  HAVE_FFTW3_H : bool;
  NCMPCPP_UNICODE : bool
}.

(** [#ifdef flag ... #endif] around a piece of streamed text. *)
Definition ifdef (flag : bool) (text : string) : string :=
  if flag then text else "".

(** The text streamed to [std::cout] for [--version]. *)
Definition version_text (b : config_h) : string :=
  "ncmpcpp " +:+ VERSION b +:+ nl +:+ nl
  +:+ "optional screens compiled-in:" +:+ nl
  +:+ ifdef (HAVE_TAGLIB_H b) (" - tag editor" +:+ nl +:+ " - tiny tag editor" +:+ nl)
  +:+ ifdef (HAVE_CURL_CURL_H b) (" - artist info" +:+ nl)
  +:+ ifdef (ENABLE_OUTPUTS b) (" - outputs" +:+ nl)
  +:+ ifdef (ENABLE_VISUALIZER b) (" - visualizer" +:+ nl)
  +:+ ifdef (ENABLE_CLOCK b) (" - clock" +:+ nl)
  +:+ nl +:+ "encoding detection: "
  +:+ (if HAVE_LANGINFO_H b then "enabled" else "disabled")
  +:+ nl +:+ "built with support for:"
  +:+ ifdef (HAVE_CURL_CURL_H b) " curl"
  +:+ ifdef (HAVE_FFTW3_H b) " fftw"
  +:+ " ncurses"
  +:+ ifdef (HAVE_TAGLIB_H b) " taglib"
  +:+ ifdef (NCMPCPP_UNICODE b) " unicode"
  +:+ nl.

(** The text streamed to [std::cout] for [--help]; [options] is what
    [operator<<] writes for the options description. *)
Definition usage_text (argv : list string) (options : string) : string :=
  "Usage: " +:+ default "" (head argv) +:+ " [options]..." +:+ nl
  +:+ options +:+ nl.

(** A call into a library that either yields a value or throws an exception
    derived from [std::exception], whose [what()] is kept. *)
Inductive exn (A : Type) :=
| Value (a : A)
| Raises (what : string).
Arguments Value {A} a.
Arguments Raises {A} what.

(** What the process has done so far that can be observed from outside:
    text on the two streams and the calls into the collaborators. *)
Inductive Event :=
| Cout (text : string)
| Cerr (text : string)
| ConfigRead (paths : list string) (ignore_errors : bool)
| BindingsRead (path : string)
| GenerateDefaults
| CreateDirectory (path : string).

#[global] Instance Event_eq_dec : EqDecision Event.
Proof. solve_decision. Defined.

(** How the process leaves [configure]. *)
Inductive Outcome :=
| Returned (b : bool)
| Exited (status : Z)
| Aborted.

(** How a statement ends: control reaches the next statement, the function
    returns, the process exits, an exception propagates, or an assertion
    fails. *)
Inductive Flow (A : Type) :=
| Next (a : A)
| Return (b : bool)
| Exit (status : Z)
| Throw (what : string)
| Abort.
Arguments Next {A} a.
Arguments Return {A} b.
Arguments Exit {A} status.
Arguments Throw {A} what.
Arguments Abort {A}.

(** ** The start-up sequence *)

Section Configure.

(** Whatever the collaborators own beyond [Config] and [Mpd]: the files on
    disk, the table of key bindings. *)
Context {Outside : Type}.

(** The objects [configure] shares with the rest of the application. *)
Record Globals := mkGlobals {
  Config : Configuration;
  Mpd : Connection;
  outside : Outside
}.

(** The state threaded through [configure]: the file-level [env_home], the
    shared objects, and the events so far, oldest first. *)
Record Machine := mkMachine {
  env_home : option string;
  globals : Globals;
  trace : list Event
}.

(** The functions [configure] calls and whose code lies elsewhere: the
    program_options, filesystem and lexical_cast libraries, the readers of
    the configuration and bindings files, and the screen-name table. *)
Class Collaborators := {
  build : config_h;
  (** [operator<<] on the options description *)
  options_text : string;
  (** [po::store(po::parse_command_line(argc, argv, options), vm)], given
      the default of [--config], the one default that is computed *)
  parse_command_line : list string -> list string -> exn variables_map;
  (** [Config.read(paths, ignore_errors)] *)
  Config_read : list string -> bool -> Globals -> bool * Globals;
  (** [Bindings.read(path)] *)
  Bindings_read : string -> Globals -> bool * Globals;
  (** [Bindings.generateDefaults()] *)
  Bindings_generateDefaults : Globals -> Globals;
  (** [boost::filesystem::create_directory(path)], which throws when the
      directory can not be created *)
  create_directory : string -> Globals -> exn Globals;
  (** [boost::lexical_cast<int>(text)] *)
  lexical_cast_int : string -> exn Z;
  stringtoStartupScreenType : string -> ScreenType
}.

Context `{!Collaborators}.

Definition Proc (A : Type) : Type := Machine -> Flow A * Machine.

#[global] Instance Proc_ret : MRet Proc := λ A a m, (Next a, m).

#[global] Instance Proc_bind : MBind Proc := λ A B f c m,
  match c m with
  | (Next a, m') => f a m'
  | (Return b, m') => (Return b, m')
  | (Exit n, m') => (Exit n, m')
  | (Throw what, m') => (Throw what, m')
  | (Abort, m') => (Abort, m')
  end.

Definition return_ {A} (b : bool) : Proc A := λ m, (Return b, m).
Definition exit {A} (status : Z) : Proc A := λ m, (Exit status, m).

(** [if (cond) { body }] *)
Definition when (cond : bool) (body : Proc unit) : Proc unit :=
  if cond then body else mret tt.

Definition emit (e : Event) : Proc unit :=
  λ m, (Next tt, mkMachine (env_home m) (globals m) (trace m ++ [e])).
Definition cout (text : string) : Proc unit := emit (Cout text).
Definition cerr (text : string) : Proc unit := emit (Cerr text).

Definition load_globals : Proc Globals := λ m, (Next (globals m), m).
Definition store_globals (g : Globals) : Proc unit :=
  λ m, (Next tt, mkMachine (env_home m) g (trace m)).
Definition load_env_home : Proc (option string) := λ m, (Next (env_home m), m).
Definition store_env_home (v : option string) : Proc unit :=
  λ m, (Next tt, mkMachine v (globals m) (trace m)).

(** A library call that may throw. *)
Definition lift_exn {A} (r : exn A) : Proc A :=
  λ m, match r with
       | Value a => (Next a, m)
       | Raises what => (Throw what, m)
       end.

(** [try { body } catch (std::exception &e) { handler(e.what()) }] *)
Definition try_catch {A} (body : Proc A) (handler : string -> Proc A) : Proc A :=
  λ m, match body m with
       | (Throw what, m') => handler what m'
       | r => r
       end.

(** A call of [expand_home] on a variable: the variable's new content. *)
Definition call_expand_home (path : string) : Proc string :=
  λ m, match expand_home (env_home m) path with
       | Some path' => (Next path', m)
       | None => (Abort, m)
       end.

(** [std::for_each(paths.begin(), paths.end(), expand_home)] *)
Fixpoint for_each_expand_home (paths : list string) : Proc (list string) :=
  match paths with
  | [] => mret []
  | path :: rest =>
      path' ← call_expand_home path;
      rest' ← for_each_expand_home rest;
      mret (path' :: rest')
  end.

Definition call_Config_read (paths : list string) (ignore_errors : bool) : Proc bool :=
  emit (ConfigRead paths ignore_errors);;
  g ← load_globals;
  let '(ok, g') := Config_read paths ignore_errors g in
  store_globals g';; mret ok.

Definition call_Bindings_read (path : string) : Proc bool :=
  emit (BindingsRead path);;
  g ← load_globals;
  let '(ok, g') := Bindings_read path g in
  store_globals g';; mret ok.

Definition call_Bindings_generateDefaults : Proc unit :=
  emit GenerateDefaults;;
  g ← load_globals;
  store_globals (Bindings_generateDefaults g).

Definition call_create_directory (path : string) : Proc unit :=
  emit (CreateDirectory path);;
  g ← load_globals;
  g' ← lift_exn (create_directory path g);
  store_globals g'.

Definition modify_Mpd (f : Connection -> Connection) : Proc unit :=
  g ← load_globals;
  store_globals (mkGlobals (Config g) (f (Mpd g)) (outside g)).

Definition modify_Config (f : Configuration -> Configuration) : Proc unit :=
  g ← load_globals;
  store_globals (mkGlobals (f (Config g)) (Mpd g) (outside g)).

Definition set_startup_screen_type (t : ScreenType) (c : Configuration) : Configuration :=
  mkConfiguration (ncmpcpp_directory c) (lyrics_directory c)
    (mpd_connection_timeout c) t (startup_slave_screen_type c).

Definition set_startup_slave_screen_type (t : ScreenType) (c : Configuration) : Configuration :=
  mkConfiguration (ncmpcpp_directory c) (lyrics_directory c)
    (mpd_connection_timeout c) (startup_screen_type c) t.

(** Lines 94 to 141: the two switches that end start-up at once. *)
Definition help_and_version (argv : list string) (vm : variables_map) : Proc unit :=
  when (vm_help vm)
    (cout (usage_text argv options_text);; return_ false);;
  when (vm_version vm)
    (cout (version_text build);; return_ false).

(** Lines 144 to 150, [// get home directory]. *)
Definition get_home_directory (env : Env) : Proc unit :=
  store_env_home (getenv env "HOME");;
  home ← load_env_home;
  when (bool_decide (home = None))
    (cerr ("Fatal error: HOME environment variable is not defined" +:+ nl);;
     return_ false).

(** Lines 152 to 155, [// read configuration]. *)
Definition read_configuration (vm : variables_map) : Proc unit :=
  config_paths ← for_each_expand_home (vm_config vm);
  ok ← call_Config_read config_paths (vm_ignore_config_errors vm);
  when (negb ok) (exit 1).

(** Lines 157 to 166: the bindings path, then [// read bindings]. *)
Definition read_bindings (vm : variables_map) : Proc unit :=
  g ← load_globals;
  bindings_path ←
    (if vm_bindings_defaulted vm
     then mret (ncmpcpp_directory (Config g) +:+ "bindings")
     else call_expand_home (vm_bindings vm));
  ok ← call_Bindings_read bindings_path;
  when (negb ok) (exit 1);;
  call_Bindings_generateDefaults.

(** Lines 168 to 170, [// create directories]. *)
Definition create_directories : Proc unit :=
  g ← load_globals;
  call_create_directory (ncmpcpp_directory (Config g));;
  g ← load_globals;
  call_create_directory (lyrics_directory (Config g)).

(** Lines 172 to 187: the connection details from the environment, then
    from the command line, then the timeout. *)
Definition connection_details (env : Env) (vm : variables_map) : Proc unit :=
  let env_host := getenv env "MPD_HOST" in
  let env_port := getenv env "MPD_PORT" in
  match env_host with
  | Some host => modify_Mpd (SetHostname host)
  | None => mret tt
  end;;
  match env_port with
  | Some text => p ← lift_exn (lexical_cast_int text); modify_Mpd (SetPort p)
  | None => mret tt
  end;;
  when (negb (vm_host_defaulted vm)) (modify_Mpd (SetHostname (vm_host vm)));;
  when (negb (vm_port_defaulted vm)) (modify_Mpd (SetPort (vm_port vm)));;
  g ← load_globals;
  modify_Mpd (SetTimeout (mpd_connection_timeout (Config g))).

(** Lines 189 to 199, [// custom startup screen]. *)
Definition custom_startup_screen (vm : variables_map) : Proc unit :=
  match vm_screen vm with
  | Some screen =>
      let t := stringtoStartupScreenType screen in
      modify_Config (set_startup_screen_type t);;
      when (bool_decide (t = Unknown))
        (cerr ("Unknown screen: " +:+ screen +:+ nl);; exit 1)
  | None => mret tt
  end.

(** Lines 201 to 211, [// custom startup slave screen]. *)
Definition custom_startup_slave_screen (vm : variables_map) : Proc unit :=
  match vm_slave_screen vm with
  | Some screen =>
      let t := stringtoStartupScreenType screen in
      modify_Config (set_startup_slave_screen_type t);;
      when (bool_decide (t = Unknown))
        (cerr ("Unknown slave screen: " +:+ screen +:+ nl);; exit 1)
  | None => mret tt
  end.

(** The [try] block, lines 92 to 211.  [po::notify(vm)] stores the values
    of [--config] and [--bindings] in [config_paths] and [bindings_path];
    they are read from [vm] here. *)
Definition try_block (env : Env) (argv : list string) : Proc unit :=
  vm ← lift_exn (parse_command_line (default_config_paths env) argv);
  help_and_version argv vm;;
  get_home_directory env;;
  read_configuration vm;;
  read_bindings vm;;
  create_directories;;
  connection_details env vm;;
  custom_startup_screen vm;;
  custom_startup_slave_screen vm.

(** The handler, lines 213 to 217. *)
Definition catch_block (what : string) : Proc unit :=
  cerr ("Error while processing configuration: " +:+ what +:+ nl);;
  exit 1.

(** The body of [configure]: the [try] block with its handler, followed by
    [return true]. *)
Definition configure_body (env : Env) (argv : list string) : Proc unit :=
  try_catch (try_block env argv) catch_block;;
  return_ true.

(** [configure(argc, argv)] run in the environment [env] from the machine
    [m]: how it leaves, and the machine it leaves behind.  An exception that
    would escape and a failed assertion both end in [abort]. *)
Definition configure (env : Env) (argv : list string) (m : Machine) : Outcome * Machine :=
  match configure_body env argv m with
  | (Next _, m') => (Returned true, m')
  | (Return b, m') => (Returned b, m')
  | (Exit status, m') => (Exited status, m')
  | (Throw _, m') => (Aborted, m')
  | (Abort, m') => (Aborted, m')
  end.

(** The machine [m] after the events [evs]. *)
Definition logged (m : Machine) (evs : list Event) : Machine :=
  mkMachine (env_home m) (globals m) (trace m ++ evs).

(** The statements of the [try] block that come before the screen checks,
    for the options [vm]. *)
Definition startup_until_screens (env : Env) (argv : list string) (vm : variables_map)
  : Proc unit :=
  help_and_version argv vm;;
  get_home_directory env;;
  read_configuration vm;;
  read_bindings vm;;
  create_directories;;
  connection_details env vm.

(** The value of [bindings_path] when [Bindings.read] is called: [g] is the
    state of the shared objects after [Config.read]. *)
Definition resolved_bindings_path (home : string) (vm : variables_map) (g : Globals) : string :=
  if vm_bindings_defaulted vm
  then ncmpcpp_directory (Config g) +:+ "bindings"
  else replace_home home (vm_bindings vm).

(** The machine [m] with [Mpd] replaced by [c], and with [Config] replaced
    by [c]. *)
Definition with_Mpd (m : Machine) (c : Connection) : Machine :=
  mkMachine (env_home m)
    (mkGlobals (Config (globals m)) c (outside (globals m))) (trace m).

Definition with_Config (m : Machine) (c : Configuration) : Machine :=
  mkMachine (env_home m)
    (mkGlobals c (Mpd (globals m)) (outside (globals m))) (trace m).

(** The two overlays of lines 174 to 186 as functions on the connection:
    the host of the environment, and the details of the command line. *)
Definition environment_host (env : Env) (c : Connection) : Connection :=
  match getenv env "MPD_HOST" with
  | Some host => SetHostname host c
  | None => c
  end.

Definition command_line_details (vm : variables_map) (c : Connection) : Connection :=
  let c1 := if vm_host_defaulted vm then c else SetHostname (vm_host vm) c in
  if vm_port_defaulted vm then c1 else SetPort (vm_port vm) c1.

(** The line the handler writes for an exception. *)
Definition catch_diagnostic (what : string) : Event :=
  Cerr ("Error while processing configuration: " +:+ what +:+ nl).

(** Running [c] only ever adds events. *)
Definition extends {A} (c : Proc A) : Prop :=
  ∀ m r m', c m = (r, m') → ∃ evs, trace m' = trace m ++ evs.

(** A screen option that passes the check: absent, or a name of the table. *)
Definition recognized (name : option string) : bool :=
  match name with
  | Some screen => negb (bool_decide (stringtoStartupScreenType screen = Unknown))
  | None => true
  end.

(** The statements of the [try] block that come before the creation of the
    directories, and those that come before the connection details. *)
Definition startup_until_directories (env : Env) (argv : list string) (vm : variables_map)
  : Proc unit :=
  help_and_version argv vm;;
  get_home_directory env;;
  read_configuration vm;;
  read_bindings vm.

Definition startup_until_connection (env : Env) (argv : list string) (vm : variables_map)
  : Proc unit :=
  help_and_version argv vm;;
  get_home_directory env;;
  read_configuration vm;;
  read_bindings vm;;
  create_directories.

(** The statements of the [try] block that follow the reading of the
    bindings, lines 168 to 211. *)
Definition statements_after_bindings (env : Env) (vm : variables_map) : Proc unit :=
  create_directories;;
  connection_details env vm;;
  custom_startup_screen vm;;
  custom_startup_slave_screen vm.

(** How [configure] is left once the [try] block has ended in the way [r]:
    an exception goes through the handler, which prints its line and exits
    with status 1, and the end of the block is followed by [return true]. *)
Definition leave (r : Flow unit * Machine) : Outcome * Machine :=
  match r with
  | (Next _, m') => (Returned true, m')
  | (Return b, m') => (Returned b, m')
  | (Exit status, m') => (Exited status, m')
  | (Throw what, m') => (Exited 1, logged m' [catch_diagnostic what])
  | (Abort, m') => (Aborted, m')
  end.

(** Running [c] adds only events that satisfy [P]. *)
Definition emits_only {A} (P : Event -> Prop) (c : Proc A) : Prop :=
  ∀ m r m', c m = (r, m') → ∃ evs, trace m' = trace m ++ evs ∧ Forall P evs.

End Configure.

(** ** The caller *)

(** Modelled from the spec: the caller of [configure] (the program's main
    function, absent from the sources at hand) treats [false] as the signal
    to terminate normally and ends the process with the success status; on
    [true] start-up is handed over and the process goes on. *)
Definition status_after_return (b : bool) : option Z :=
  if b then None else Some 0.

(** The exit status of the process, when it has one by the time
    [configure] is left. *)
Definition exit_status (o : Outcome) : option Z :=
  match o with
  | Returned b => status_after_return b
  | Exited status => Some status
  | Aborted => None
  end.

(** ** Properties of event sequences *)



Definition is_ConfigRead (e : Event) : bool :=
  match e with ConfigRead _ _ => true | _ => false end.



(** ** A stand-in for the collaborators

    A small instance of the interface on which [configure] can be run: a
    disk of configuration and bindings files that set a port or are
    malformed, a reader of long options, a reader of decimal numerals and a
    one-entry screen table.  It serves the examples; the general statements
    hold for every instance. *)
Module Standin.

Inductive FileContent :=
| SetsPort (p : Z)
| Malformed.

Record Disk := mkDisk {
  files : list (string * FileContent);
  directories : list string;
  writable : bool
}.

Fixpoint lookup_file (path : string) (fs : list (string * FileContent)) : option FileContent :=
  match fs with
  | [] => None
  | (name, content) :: rest =>
      if decide (name = path) then Some content else lookup_file path rest
  end.

(** Files are read in list order; an absent file is skipped, a malformed
    one ends the read unless errors are ignored. *)
Fixpoint read_files (paths : list string) (ignore_errors : bool) (g : @Globals Disk)
  : bool * @Globals Disk :=
  match paths with
  | [] => (true, g)
  | path :: rest =>
      match lookup_file path (files (outside g)) with
      | None => read_files rest ignore_errors g
      | Some (SetsPort p) =>
          read_files rest ignore_errors
            (mkGlobals (Config g) (SetPort p (Mpd g)) (outside g))
      | Some Malformed =>
          if ignore_errors then read_files rest ignore_errors g else (false, g)
      end
  end.

Definition read_bindings_file (path : string) (g : @Globals Disk) : bool * @Globals Disk :=
  match lookup_file path (files (outside g)) with
  | Some Malformed => (false, g)
  | _ => (true, g)
  end.

Definition make_directory (path : string) (g : @Globals Disk) : exn (@Globals Disk) :=
  if writable (outside g)
  then Value (mkGlobals (Config g) (Mpd g)
                (mkDisk (files (outside g)) (path :: directories (outside g)) true))
  else Raises "boost::filesystem::create_directory: Permission denied".

Definition digit (c : ascii) : option Z :=
  let n := Z.of_nat (nat_of_ascii c) in
  if decide (48 <= n <= 57) then Some (n - 48) else None.

Fixpoint digits (acc : Z) (s : string) : option Z :=
  match s with
  | EmptyString => Some acc
  | String c rest =>
      match digit c with
      | Some d => digits (10 * acc + d) rest
      | None => None
      end
  end.

Definition decimal (s : string) : exn Z :=
  match s with
  | EmptyString => Raises "bad lexical cast"
  | _ => match digits 0 s with
         | Some n => Value n
         | None => Raises "bad lexical cast"
         end
  end.

Definition defaults (config_paths : list string) : variables_map :=
  mkVariablesMap "localhost" true 6600 true config_paths false
    "~/.ncmpcpp/bindings" true None None false false.

Definition with_host (v : string) (vm : variables_map) : variables_map :=
  mkVariablesMap v false (vm_port vm) (vm_port_defaulted vm) (vm_config vm)
    (vm_ignore_config_errors vm) (vm_bindings vm) (vm_bindings_defaulted vm)
    (vm_screen vm) (vm_slave_screen vm) (vm_help vm) (vm_version vm).

Definition with_port (v : Z) (vm : variables_map) : variables_map :=
  mkVariablesMap (vm_host vm) (vm_host_defaulted vm) v false (vm_config vm)
    (vm_ignore_config_errors vm) (vm_bindings vm) (vm_bindings_defaulted vm)
    (vm_screen vm) (vm_slave_screen vm) (vm_help vm) (vm_version vm).

Definition with_bindings (v : string) (vm : variables_map) : variables_map :=
  mkVariablesMap (vm_host vm) (vm_host_defaulted vm) (vm_port vm)
    (vm_port_defaulted vm) (vm_config vm) (vm_ignore_config_errors vm) v false
    (vm_screen vm) (vm_slave_screen vm) (vm_help vm) (vm_version vm).

Definition with_screen (v : string) (vm : variables_map) : variables_map :=
  mkVariablesMap (vm_host vm) (vm_host_defaulted vm) (vm_port vm)
    (vm_port_defaulted vm) (vm_config vm) (vm_ignore_config_errors vm)
    (vm_bindings vm) (vm_bindings_defaulted vm)
    (Some v) (vm_slave_screen vm) (vm_help vm) (vm_version vm).

Definition with_slave_screen (v : string) (vm : variables_map) : variables_map :=
  mkVariablesMap (vm_host vm) (vm_host_defaulted vm) (vm_port vm)
    (vm_port_defaulted vm) (vm_config vm) (vm_ignore_config_errors vm)
    (vm_bindings vm) (vm_bindings_defaulted vm)
    (vm_screen vm) (Some v) (vm_help vm) (vm_version vm).

Definition with_help (vm : variables_map) : variables_map :=
  mkVariablesMap (vm_host vm) (vm_host_defaulted vm) (vm_port vm)
    (vm_port_defaulted vm) (vm_config vm) (vm_ignore_config_errors vm)
    (vm_bindings vm) (vm_bindings_defaulted vm)
    (vm_screen vm) (vm_slave_screen vm) true (vm_version vm).

Definition with_version (vm : variables_map) : variables_map :=
  mkVariablesMap (vm_host vm) (vm_host_defaulted vm) (vm_port vm)
    (vm_port_defaulted vm) (vm_config vm) (vm_ignore_config_errors vm)
    (vm_bindings vm) (vm_bindings_defaulted vm)
    (vm_screen vm) (vm_slave_screen vm) (vm_help vm) true.

(** Long options only, each value in the token after its name; an unknown
    token or a missing or malformed value is an error. *)
Fixpoint read_options (tokens : list string) (vm : variables_map) : exn variables_map :=
  match tokens with
  | [] => Value vm
  | name :: rest =>
      if decide (name = "--help") then read_options rest (with_help vm)
      else if decide (name = "--version") then read_options rest (with_version vm)
      else
        match rest with
        | [] => Raises ("unrecognised option or missing argument '" +:+ name +:+ "'")
        | v :: rest' =>
            if decide (name = "--host") then read_options rest' (with_host v vm)
            else if decide (name = "--port") then
              match decimal v with
              | Value n => read_options rest' (with_port n vm)
              | Raises _ =>
                  Raises ("the argument ('" +:+ v +:+ "') for option '--port' is invalid")
              end
            else if decide (name = "--bindings") then read_options rest' (with_bindings v vm)
            else if decide (name = "--screen") then read_options rest' (with_screen v vm)
            else if decide (name = "--slave-screen") then
              read_options rest' (with_slave_screen v vm)
            else Raises ("unrecognised option '" +:+ name +:+ "'")
        end
  end.

Definition read_command_line (config_paths argv : list string) : exn variables_map :=
  read_options (tail argv) (defaults config_paths).

(** Modelled from the spec: of the name table behind
    [stringtoStartupScreenType] (not in the sources at hand) the spec gives
    one entry, the recognized name [playlist]; the number is arbitrary. *)
Definition screen_table (name : string) : ScreenType :=
  if decide (name = "playlist") then Screen 1 else Unknown.

Definition build_flags : config_h :=
  mkConfigH "0.6" true true true false true true false true.

#[global] Instance collaborators : @Collaborators Disk := {|
  build := build_flags;
  options_text := "Options:";
  parse_command_line := read_command_line;
  Config_read := read_files;
  Bindings_read := read_bindings_file;
  Bindings_generateDefaults := λ g, g;
  create_directory := make_directory;
  lexical_cast_int := decimal;
  stringtoStartupScreenType := screen_table
|}.

(** The machine at process start: [env_home] is null, nothing has happened,
    [Config] and [Mpd] hold what their constructors put there. *)
Definition start (disk : Disk) : @Machine Disk :=
  mkMachine None
    (mkGlobals
       (mkConfiguration "/home/u/.ncmpcpp/" "/home/u/.lyrics/" 5 (Screen 1) Unknown)
       (mkConnection "localhost" 6600 0)
       disk)
    [].

Definition empty_disk : Disk := mkDisk [] [] true.

Definition home_env : Env := {[ "HOME" := "/home/u" ]}.

(** HOME and MPD_PORT=7000. *)
Definition port_env : Env := <[ "MPD_PORT" := "7000" ]> home_env.

(** A disk whose first configuration file sets the port 6601. *)
Definition port_disk : Disk :=
  mkDisk [("/home/u/.ncmpcpp/config", SetsPort 6601)] [] true.

(** A disk whose bindings file does not load. *)
Definition bad_bindings_disk : Disk :=
  mkDisk [("/home/u/.ncmpcpp/bindings", Malformed)] [] true.

(** A disk on which no directory can be created. *)
Definition readonly_disk : Disk := mkDisk [] [] false.

(** HOME and an MPD_PORT that is not a number. *)
Definition bad_port_env : Env := <[ "MPD_PORT" := "abc" ]> home_env.

End Standin.

(** * Properties *)

(** ** Home expansion *)

Lemma replace_home_no_tilde home path :
  starts_with_tilde path = false → replace_home home path = path.
Proof.
  destruct path as [|c rest]; [done|]. cbn.
  intros Hc. apply bool_decide_eq_false in Hc. by rewrite decide_False.
Qed.

Lemma replace_home_tilde home rest :
  replace_home home (String tilde rest) = home +:+ rest.
Proof. reflexivity. Qed.


(** C8, as amended.  With the home directory resolved, [expand_home]
    leaves every path that does not start with ['~'] unchanged; and when
    the home directory is a non-empty string that does not itself begin
    with ['~'], expanding a path a second time gives what the first
    expansion gave. *)
Theorem expand_home_idempotent (home path : string) :
  (starts_with_tilde path = false → expand_home (Some home) path = Some path) ∧
  (home ≠ "" →
   starts_with_tilde home = false →
   ∃ once, expand_home (Some home) path = Some once ∧
           expand_home (Some home) once = Some once).
Proof.
  split.
  - intros Hpath. cbn. by rewrite replace_home_no_tilde.
  - intros Hne Hhome. exists (replace_home home path). split; [done|]. cbn. f_equal.
    apply replace_home_no_tilde.
    destruct path as [|c rest]; [done|]. cbn. case_decide; [|by apply bool_decide_eq_false_2].
    destruct home as [|h home']; [done|]. exact Hhome.
Qed.

(** C9.  With the home directory resolved to [home], a path that begins with
    ['~'] becomes [home] followed by everything after that first character,
    whatever follows the tilde; the empty path and a path beginning with
    any other character are returned as they are, tildes further in
    included. *)
Theorem expand_home_leading_tilde_only (home : string) :
  (∀ rest, expand_home (Some home) (String tilde rest) = Some (home +:+ rest)) ∧
  expand_home (Some home) "~user/x" = Some (home +:+ "user/x") ∧
  expand_home (Some home) "" = Some "" ∧
  expand_home (Some home) "a~/~b" = Some "a~/~b" ∧
  (∀ c rest,
     expand_home (Some home) (String c rest) =
       Some (if decide (c = tilde) then home +:+ rest else String c rest)).
Proof.
  repeat split; reflexivity.
Qed.

(** ** The configuration directory *)

Lemma back_app_slash s : back (s +:+ "/") = Some slash.
Proof.
  induction s as [|c s IH]; [done|].
  cbn in *. by destruct s.
Qed.

Lemma back_None s : back s = None → s = "".
Proof.
  induction s as [|c s IH]; [done|]. cbn.
  destruct s; [done|]. intros Hs. by specialize (IH Hs).
Qed.

(** X1.  Whatever XDG_CONFIG_HOME holds, [xdg_config_home] ends with the
    separator, with one exception: a variable set to the empty string
    gives the empty string. *)
Theorem xdg_config_home_trailing_separator (env : Env) :
  (env !! "XDG_CONFIG_HOME" = Some "" ∧ xdg_config_home env = "") ∨
  back (xdg_config_home env) = Some slash.
Proof.
  unfold xdg_config_home, getenv.
  destruct (env !! "XDG_CONFIG_HOME") as [v|]; [|by right].
  destruct (back v) as [c|] eqn:Hback.
  - right. case_decide; [by subst c|]. apply back_app_slash.
  - left. by rewrite (back_None v Hback).
Qed.

Lemma xdg_config_home_normal (env : Env) :
  xdg_config_home env = "" ∨ back (xdg_config_home env) = Some slash.
Proof.
  unfold xdg_config_home, getenv.
  destruct (env !! "XDG_CONFIG_HOME") as [v|]; [|by right].
  destruct (back v) as [c|] eqn:Hback.
  - right. case_decide; [by subst c|]. apply back_app_slash.
  - left. by apply back_None.
Qed.

(** X13.  [xdg_config_home] normalizes: with XDG_CONFIG_HOME set to what
    [xdg_config_home] returned, it returns the same string again, so no
    second separator is ever added. *)
Theorem xdg_config_home_idempotent (env : Env) :
  xdg_config_home (<[ "XDG_CONFIG_HOME" := xdg_config_home env ]> env) =
    xdg_config_home env.
Proof.
  destruct (xdg_config_home_normal env) as [Hempty|Hback].
  - unfold xdg_config_home at 1, getenv. rewrite lookup_insert_eq. by rewrite Hempty.
  - unfold xdg_config_home at 1, getenv. rewrite lookup_insert_eq, Hback.
    by rewrite decide_True.
Qed.

(** X2.  The default configuration paths once [expand_home] has been
    applied to each: the first is the home directory followed by
    [/.ncmpcpp/config]; the second is the home directory followed by
    [/.config/ncmpcpp/config] when XDG_CONFIG_HOME is unset, and when it is
    set to a value that does not begin with ['~'] the second path is left
    as [xdg_config_home] built it. *)
Theorem default_config_paths_after_expansion (env : Env) (home : string) :
  (env !! "XDG_CONFIG_HOME" = None →
   replace_home home <$> default_config_paths env =
     [home +:+ "/.ncmpcpp/config"; home +:+ "/.config/ncmpcpp/config"]) ∧
  (∀ v, env !! "XDG_CONFIG_HOME" = Some v →
        starts_with_tilde v = false →
        replace_home home <$> default_config_paths env =
          [home +:+ "/.ncmpcpp/config"; xdg_config_home env +:+ "ncmpcpp/config"]).
Proof.
  unfold default_config_paths, xdg_config_home, getenv. split.
  - by intros ->.
  - intros v -> Hv. cbn [fmap list_fmap]. f_equal. f_equal.
    apply replace_home_no_tilde.
    destruct v as [|c v]; [done|].
    destruct (back (String c v)); [case_decide|]; exact Hv.
Qed.

(** ** The statement sequence *)

Section Properties.

Context {Outside : Type} `{!@Collaborators Outside}.

Implicit Types (m : @Machine Outside) (g : @Globals Outside).
Implicit Types (vm : variables_map) (env : Env) (argv : list string).

(** Runs the primitive statements of a [Proc] term. *)
Ltac proc :=
  cbv beta iota zeta delta
    [mbind mret Proc_bind Proc_ret emit cout cerr load_globals store_globals
     load_env_home store_env_home lift_exn return_ exit when modify_Mpd
     modify_Config call_Config_read call_Bindings_read
     call_Bindings_generateDefaults call_create_directory];
  cbn [env_home globals trace fst snd negb Config Mpd outside].

Lemma bind_unfold {A B} (c : Proc A) (k : A → Proc B) m :
  (c ≫= k) m =
    match c m with
    | (Next a, m') => k a m'
    | (Return b, m') => (Return b, m')
    | (Exit n, m') => (Exit n, m')
    | (Throw what, m') => (Throw what, m')
    | (Abort, m') => (Abort, m')
    end.
Proof. reflexivity. Qed.

Lemma bind_next {A B} (c : Proc A) (k : A → Proc B) m a m1 :
  c m = (Next a, m1) → (c ≫= k) m = k a m1.
Proof. intros E. by rewrite bind_unfold, E. Qed.

Lemma bind_assoc {A B C} (c : Proc A) (k : A → Proc B) (k' : B → Proc C) m :
  ((c ≫= k) ≫= k') m = (c ≫= (λ a, k a ≫= k')) m.
Proof. rewrite !bind_unfold. by destruct (c m) as [[] ?]. Qed.

(** *** What each group of statements does *)

Lemma help_and_version_eq argv vm m :
  help_and_version argv vm m =
    if vm_help vm then (Return false, logged m [Cout (usage_text argv options_text)])
    else if vm_version vm then (Return false, logged m [Cout (version_text build)])
    else (Next tt, m).
Proof.
  unfold help_and_version. by destruct (vm_help vm), (vm_version vm).
Qed.

Lemma get_home_directory_eq env m :
  get_home_directory env m =
    match env !! "HOME" with
    | Some home => (Next tt, mkMachine (Some home) (globals m) (trace m))
    | None =>
        (Return false,
         mkMachine None (globals m)
           (trace m ++ [Cerr ("Fatal error: HOME environment variable is not defined" +:+ nl)]))
    end.
Proof.
  unfold get_home_directory, getenv. by destruct (env !! "HOME").
Qed.

Lemma for_each_expand_home_eq home paths m :
  env_home m = Some home →
  for_each_expand_home paths m = (Next (replace_home home <$> paths), m).
Proof.
  intros Hm. induction paths as [|path rest IH]; [done|].
  cbn [for_each_expand_home]. rewrite bind_unfold.
  unfold call_expand_home at 1. rewrite Hm. cbn [expand_home].
  rewrite bind_unfold, IH. done.
Qed.

Lemma read_configuration_eq home vm m :
  env_home m = Some home →
  read_configuration vm m =
    let paths := replace_home home <$> vm_config vm in
    let r := Config_read paths (vm_ignore_config_errors vm) (globals m) in
    (if r.1 then Next tt else Exit 1,
     mkMachine (env_home m) r.2
       (trace m ++ [ConfigRead paths (vm_ignore_config_errors vm)])).
Proof.
  intros Hm. unfold read_configuration.
  rewrite bind_unfold, (for_each_expand_home_eq home) by done.
  proc. by destruct (Config_read _ _ _) as [[] g'].
Qed.

Lemma read_bindings_eq home vm m :
  env_home m = Some home →
  read_bindings vm m =
    let path := resolved_bindings_path home vm (globals m) in
    let r := Bindings_read path (globals m) in
    if r.1
    then (Next tt,
          mkMachine (env_home m) (Bindings_generateDefaults r.2)
            (trace m ++ [BindingsRead path; GenerateDefaults]))
    else (Exit 1, mkMachine (env_home m) r.2 (trace m ++ [BindingsRead path])).
Proof.
  intros Hm. unfold read_bindings, resolved_bindings_path, call_expand_home.
  destruct (vm_bindings_defaulted vm); proc;
    rewrite ?Hm; cbn [expand_home]; proc;
    destruct (Bindings_read _ _) as [[] g']; proc; rewrite <- ?app_assoc, ?Hm;
    reflexivity.
Qed.

Lemma create_directories_eq m :
  create_directories m =
    let first := ncmpcpp_directory (Config (globals m)) in
    match create_directory first (globals m) with
    | Raises what =>
        (Throw what, logged m [CreateDirectory first])
    | Value g1 =>
        let second := lyrics_directory (Config g1) in
        match create_directory second g1 with
        | Raises what =>
            (Throw what,
             mkMachine (env_home m) g1
               (trace m ++ [CreateDirectory first; CreateDirectory second]))
        | Value g2 =>
            (Next tt,
             mkMachine (env_home m) g2
               (trace m ++ [CreateDirectory first; CreateDirectory second]))
        end
    end.
Proof.
  unfold create_directories, logged. proc.
  destruct (create_directory _ (globals m)) as [g1|what]; proc; [|done].
  destruct (create_directory _ g1) as [g2|what]; proc; rewrite <- app_assoc;
    reflexivity.
Qed.

Lemma connection_details_eq env vm m :
  connection_details env vm m =
    let c1 := environment_host env (Mpd (globals m)) in
    let t := mpd_connection_timeout (Config (globals m)) in
    match env !! "MPD_PORT" with
    | Some text =>
        match lexical_cast_int text with
        | Raises what => (Throw what, with_Mpd m c1)
        | Value p =>
            (Next tt, with_Mpd m (SetTimeout t (command_line_details vm (SetPort p c1))))
        end
    | None => (Next tt, with_Mpd m (SetTimeout t (command_line_details vm c1)))
    end.
Proof.
  unfold connection_details, environment_host, command_line_details, with_Mpd, getenv.
  destruct (env !! "MPD_HOST"), (env !! "MPD_PORT") as [text|]; proc;
    try destruct (lexical_cast_int text); proc;
    destruct (vm_host_defaulted vm), (vm_port_defaulted vm); proc;
    try reflexivity; by destruct m as [? [] ?].
Qed.

Lemma custom_startup_screen_eq vm m :
  custom_startup_screen vm m =
    match vm_screen vm with
    | None => (Next tt, m)
    | Some screen =>
        let t := stringtoStartupScreenType screen in
        let m1 := with_Config m (set_startup_screen_type t (Config (globals m))) in
        if bool_decide (t = Unknown)
        then (Exit 1, logged m1 [Cerr ("Unknown screen: " +:+ screen +:+ nl)])
        else (Next tt, m1)
    end.
Proof.
  unfold custom_startup_screen, with_Config, logged.
  destruct (vm_screen vm) as [screen|]; [|done]. proc.
  by case_bool_decide.
Qed.

Lemma custom_startup_slave_screen_eq vm m :
  custom_startup_slave_screen vm m =
    match vm_slave_screen vm with
    | None => (Next tt, m)
    | Some screen =>
        let t := stringtoStartupScreenType screen in
        let m1 := with_Config m (set_startup_slave_screen_type t (Config (globals m))) in
        if bool_decide (t = Unknown)
        then (Exit 1, logged m1 [Cerr ("Unknown slave screen: " +:+ screen +:+ nl)])
        else (Next tt, m1)
    end.
Proof.
  unfold custom_startup_slave_screen, with_Config, logged.
  destruct (vm_slave_screen vm) as [screen|]; [|done]. proc.
  by case_bool_decide.
Qed.

(** *** Events are only ever added *)

Lemma extends_same {A} (c : @Proc Outside A) :
  (∀ m, trace (c m).2 = trace m) → extends c.
Proof.
  intros Hc m r m' E. exists []. rewrite app_nil_r, <- (Hc m). by rewrite E.
Qed.

Lemma extends_bind {A B} (c : @Proc Outside A) (k : A → @Proc Outside B) :
  extends c → (∀ a, extends (k a)) → extends (c ≫= k).
Proof.
  intros Hc Hk m r m' E. rewrite bind_unfold in E.
  destruct (c m) as [f m1] eqn:Ec. destruct (Hc _ _ _ Ec) as [evs Hevs].
  destruct f; try (injection E as <- <-; by eauto).
  destruct (Hk _ _ _ _ E) as [evs' Hevs'].
  exists (evs ++ evs'). by rewrite Hevs', Hevs, app_assoc.
Qed.

Lemma extends_create_directories : extends create_directories.
Proof.
  intros m r m' E. rewrite create_directories_eq in E. cbn zeta in E.
  destruct (create_directory _ (globals m)) as [g1|what].
  - destruct (create_directory _ g1); injection E as <- <-; by eauto.
  - injection E as <- <-. by eauto.
Qed.

Lemma extends_connection_details env vm : extends (connection_details env vm).
Proof.
  apply extends_same. intros m. rewrite connection_details_eq. cbn zeta.
  destruct (env !! "MPD_PORT") as [text|]; [|done].
  by destruct (lexical_cast_int text).
Qed.

Lemma extends_custom_startup_screen vm : extends (custom_startup_screen vm).
Proof.
  intros m r m' E. rewrite custom_startup_screen_eq in E.
  destruct (vm_screen vm); cbn zeta in E.
  - case_bool_decide; injection E as <- <-; [by eauto|]. exists []. by rewrite app_nil_r.
  - injection E as <- <-. exists []. by rewrite app_nil_r.
Qed.

Lemma extends_custom_startup_slave_screen vm : extends (custom_startup_slave_screen vm).
Proof.
  intros m r m' E. rewrite custom_startup_slave_screen_eq in E.
  destruct (vm_slave_screen vm); cbn zeta in E.
  - case_bool_decide; injection E as <- <-; [by eauto|]. exists []. by rewrite app_nil_r.
  - injection E as <- <-. exists []. by rewrite app_nil_r.
Qed.

(** The statements that follow the reading of the bindings. *)
Lemma extends_after_bindings env vm :
  extends (create_directories;; connection_details env vm;;
           custom_startup_screen vm;; custom_startup_slave_screen vm).
Proof.
  apply extends_bind; [apply extends_create_directories|intros _].
  apply extends_bind; [apply extends_connection_details|intros _].
  apply extends_bind; [apply extends_custom_startup_screen|intros _].
  apply extends_custom_startup_slave_screen.
Qed.

(** *** From the [try] block to the way [configure] is left *)

Lemma configure_eq env argv m :
  configure env argv m =
    match try_block env argv m with
    | (Next _, m') => (Returned true, m')
    | (Return b, m') => (Returned b, m')
    | (Exit status, m') => (Exited status, m')
    | (Throw what, m') => (Exited 1, logged m' [catch_diagnostic what])
    | (Abort, m') => (Aborted, m')
    end.
Proof.
  unfold configure, configure_body, try_catch. rewrite bind_unfold.
  by destruct (try_block env argv m) as [[] m'].
Qed.

Lemma try_block_parse_error env argv m what :
  parse_command_line (default_config_paths env) argv = Raises what →
  try_block env argv m = (Throw what, m).
Proof. intros E. unfold try_block. rewrite bind_unfold. unfold lift_exn. by rewrite E. Qed.

Lemma try_block_parsed env argv m vm :
  parse_command_line (default_config_paths env) argv = Value vm →
  try_block env argv m =
    (help_and_version argv vm;;
     get_home_directory env;;
     read_configuration vm;;
     read_bindings vm;;
     create_directories;;
     connection_details env vm;;
     custom_startup_screen vm;;
     custom_startup_slave_screen vm) m.
Proof. intros E. unfold try_block. rewrite bind_unfold. unfold lift_exn. by rewrite E. Qed.

(** With neither switch given and HOME set, the block runs as far as the
    two readers let it; [k] stands for the statements after them. *)
Lemma startup_through_bindings env argv vm m home (k : Proc unit) :
  vm_help vm = false →
  vm_version vm = false →
  env !! "HOME" = Some home →
  (help_and_version argv vm;;
   get_home_directory env;;
   read_configuration vm;;
   read_bindings vm;;
   k) m =
    let paths := replace_home home <$> vm_config vm in
    let ignore := vm_ignore_config_errors vm in
    let r1 := Config_read paths ignore (globals m) in
    let path := resolved_bindings_path home vm r1.2 in
    let r2 := Bindings_read path r1.2 in
    if r1.1 then
      if r2.1 then
        k (mkMachine (Some home) (Bindings_generateDefaults r2.2)
             (trace m ++ [ConfigRead paths ignore; BindingsRead path; GenerateDefaults]))
      else
        (Exit 1,
         mkMachine (Some home) r2.2
           (trace m ++ [ConfigRead paths ignore; BindingsRead path]))
    else
      (Exit 1, mkMachine (Some home) r1.2 (trace m ++ [ConfigRead paths ignore])).
Proof.
  intros Hhelp Hversion Hhome. cbn zeta.
  rewrite bind_unfold, help_and_version_eq, Hhelp, Hversion.
  rewrite bind_unfold, get_home_directory_eq, Hhome.
  rewrite bind_unfold, (read_configuration_eq home) by done.
  cbn [env_home globals trace]. cbn zeta.
  destruct (Config_read _ _ (globals m)) as [[] g1]; cbn [fst snd]; [|done].
  rewrite bind_unfold, (read_bindings_eq home) by done.
  cbn [env_home globals trace]. cbn zeta.
  destruct (Bindings_read _ g1) as [[] g2]; cbn [fst snd];
    by rewrite <- app_assoc.
Qed.

Lemma bind_congr {A B} (c : Proc A) (k k' : A → Proc B) m :
  (∀ a m1, c m = (Next a, m1) → k a m1 = k' a m1) →
  (c ≫= k) m = (c ≫= k') m.
Proof.
  intros Hk. rewrite !bind_unfold. destruct (c m) as [[] m1]; auto.
Qed.

Lemma try_block_until_screens env argv m vm :
  parse_command_line (default_config_paths env) argv = Value vm →
  try_block env argv m =
    (startup_until_screens env argv vm;;
     custom_startup_screen vm;;
     custom_startup_slave_screen vm) m.
Proof.
  intros E. rewrite (try_block_parsed _ _ _ vm) by done.
  unfold startup_until_screens. symmetry.
  do 5 (rewrite bind_assoc; apply bind_congr; intros [] ? _).
  done.
Qed.

Lemma configure_parse_error env argv m what :
  parse_command_line (default_config_paths env) argv = Raises what →
  configure env argv m = (Exited 1, logged m [catch_diagnostic what]).
Proof. intros E. by rewrite configure_eq, (try_block_parse_error _ _ _ what). Qed.

Lemma configure_help env argv m vm :
  parse_command_line (default_config_paths env) argv = Value vm →
  vm_help vm = true →
  configure env argv m = (Returned false, logged m [Cout (usage_text argv options_text)]).
Proof.
  intros E Hhelp. rewrite configure_eq, (try_block_parsed _ _ _ vm) by done.
  by rewrite bind_unfold, help_and_version_eq, Hhelp.
Qed.

Lemma configure_version env argv m vm :
  parse_command_line (default_config_paths env) argv = Value vm →
  vm_help vm = false →
  vm_version vm = true →
  configure env argv m = (Returned false, logged m [Cout (version_text build)]).
Proof.
  intros E Hhelp Hversion. rewrite configure_eq, (try_block_parsed _ _ _ vm) by done.
  by rewrite bind_unfold, help_and_version_eq, Hhelp, Hversion.
Qed.

Lemma configure_home_absent env argv m vm :
  parse_command_line (default_config_paths env) argv = Value vm →
  vm_help vm = false →
  vm_version vm = false →
  env !! "HOME" = None →
  configure env argv m =
    (Returned false,
     mkMachine None (globals m)
       (trace m ++ [Cerr ("Fatal error: HOME environment variable is not defined" +:+ nl)])).
Proof.
  intros E Hhelp Hversion Hhome.
  rewrite configure_eq, (try_block_parsed _ _ _ vm) by done.
  rewrite bind_unfold, help_and_version_eq, Hhelp, Hversion.
  by rewrite bind_unfold, get_home_directory_eq, Hhome.
Qed.


(** C4, as amended.  When the command line parses and [--help] or [--version] is among
    its options, [configure] prints the one text (the help text when
    [--help] is there, else the version text) and returns [false], on which
    the caller ends the process with status 0.  Nothing else has happened
    by then: [env_home] and the shared objects are as they were, and the
    printed text is the only new event, so no file was read, no directory
    created and no bindings loaded. *)
Theorem help_or_version_short_circuit env argv m vm :
  parse_command_line (default_config_paths env) argv = Value vm →
  vm_help vm = true ∨ vm_version vm = true →
  configure env argv m =
    (Returned false,
     logged m [Cout (if vm_help vm then usage_text argv options_text
                     else version_text build)]) ∧
  exit_status (configure env argv m).1 = Some 0.
Proof.
  intros E Hswitch. destruct (vm_help vm) eqn:Hhelp.
  - by rewrite (configure_help _ _ _ vm).
  - destruct Hswitch as [|Hversion]; [done|].
    by rewrite (configure_version _ _ _ vm).
Qed.


(** *** The two readers *)

Lemma configure_through_bindings env argv m vm home :
  parse_command_line (default_config_paths env) argv = Value vm →
  vm_help vm = false →
  vm_version vm = false →
  env !! "HOME" = Some home →
  let paths := replace_home home <$> vm_config vm in
  let ignore := vm_ignore_config_errors vm in
  let r1 := Config_read paths ignore (globals m) in
  let path := resolved_bindings_path home vm r1.2 in
  let r2 := Bindings_read path r1.2 in
  if r1.1 then
    if r2.1 then
      ∃ rest,
        trace (configure env argv m).2 =
          trace m ++ [ConfigRead paths ignore; BindingsRead path; GenerateDefaults] ++ rest
    else
      configure env argv m =
        (Exited 1,
         mkMachine (Some home) r2.2
           (trace m ++ [ConfigRead paths ignore; BindingsRead path]))
  else
    configure env argv m =
      (Exited 1, mkMachine (Some home) r1.2 (trace m ++ [ConfigRead paths ignore])).
Proof.
  intros E Hhelp Hversion Hhome. cbn zeta.
  rewrite configure_eq, (try_block_parsed _ _ _ vm) by done.
  rewrite (startup_through_bindings _ _ _ _ home) by done. cbn zeta.
  destruct (Config_read _ _ (globals m)) as [[] g1]; cbn [fst snd]; [|done].
  destruct (Bindings_read _ g1) as [[] g2]; cbn [fst snd]; [|done].
  match goal with |- context [ ?k (mkMachine ?h ?g ?t) ] =>
    destruct (k (mkMachine h g t)) as [f m'] eqn:Ek;
    destruct (extends_after_bindings _ _ _ _ _ Ek) as [rest Hrest]
  end.
  cbn [trace] in Hrest.
  destruct f; cbn [snd]; try (exists rest; by rewrite Hrest, <- app_assoc).
  exists (rest ++ [catch_diagnostic what]). cbn [logged trace].
  by rewrite Hrest, <- !app_assoc.
Qed.

Lemma configure_after_bindings env argv m vm home :
  parse_command_line (default_config_paths env) argv = Value vm →
  vm_help vm = false →
  vm_version vm = false →
  env !! "HOME" = Some home →
  let paths := replace_home home <$> vm_config vm in
  let ignore := vm_ignore_config_errors vm in
  let r1 := Config_read paths ignore (globals m) in
  let path := resolved_bindings_path home vm r1.2 in
  let r2 := Bindings_read path r1.2 in
  r1.1 = true → r2.1 = true →
  configure env argv m =
    leave (statements_after_bindings env vm
             (mkMachine (Some home) (Bindings_generateDefaults r2.2)
                (trace m ++ [ConfigRead paths ignore; BindingsRead path;
                             GenerateDefaults]))).
Proof.
  intros E Hhelp Hversion Hhome. cbn zeta. intros Hr1 Hr2.
  rewrite configure_eq, (try_block_parsed _ _ _ vm) by done.
  rewrite (startup_through_bindings _ _ _ _ home) by done. cbn zeta.
  by rewrite Hr1, Hr2.
Qed.

(** The first thing the statements after the bindings do is to create the
    main directory. *)
Lemma statements_after_bindings_trace env vm m :
  ∃ rest,
    trace (leave (statements_after_bindings env vm m)).2 =
      trace m ++ CreateDirectory (ncmpcpp_directory (Config (globals m))) :: rest.
Proof.
  unfold statements_after_bindings. rewrite bind_unfold, create_directories_eq.
  cbn zeta.
  destruct (create_directory _ (globals m)) as [g1|what].
  2: { eexists. cbn [leave logged snd trace]. by rewrite <- app_assoc. }
  destruct (create_directory _ g1) as [g2|what].
  2: { eexists. cbn [leave logged snd trace]. by rewrite <- app_assoc. }
  match goal with |- context [ ?k (mkMachine ?h ?g ?t) ] =>
    destruct (k (mkMachine h g t)) as [f m'] eqn:Ek
  end.
  assert (extends (connection_details env vm;; custom_startup_screen vm;;
                   custom_startup_slave_screen vm)) as Hext.
  { apply extends_bind; [apply extends_connection_details|intros _].
    apply extends_bind; [apply extends_custom_startup_screen|intros _].
    apply extends_custom_startup_slave_screen. }
  destruct (Hext _ _ _ Ek) as [evs Hevs]. cbn [trace] in Hevs.
  destruct f as [a|b|status|what|]; cbn [leave logged snd trace];
    rewrite Hevs, <- ?app_assoc; by eexists.
Qed.

(** C3, as amended.  With the command line parsed, neither switch given and
    HOME set, a failure of either reader ends the process with status 1:
    when [Config.read] fails nothing follows it; when [Bindings.read]
    fails, with the bindings path it was given, no defaults are generated
    and nothing follows it.  When both succeed the defaults are generated
    next and start-up goes on: the main directory is created next, and
    [configure] is left the way the statements after the bindings, run
    from the state with the defaults generated, end. *)
Theorem reader_failures_are_fatal env argv m vm home :
  parse_command_line (default_config_paths env) argv = Value vm →
  vm_help vm = false →
  vm_version vm = false →
  env !! "HOME" = Some home →
  let paths := replace_home home <$> vm_config vm in
  let ignore := vm_ignore_config_errors vm in
  let r1 := Config_read paths ignore (globals m) in
  let path := resolved_bindings_path home vm r1.2 in
  let r2 := Bindings_read path r1.2 in
  (r1.1 = false →
     configure env argv m =
       (Exited 1, mkMachine (Some home) r1.2 (trace m ++ [ConfigRead paths ignore]))) ∧
  (r1.1 = true → r2.1 = false →
     configure env argv m =
       (Exited 1,
        mkMachine (Some home) r2.2
          (trace m ++ [ConfigRead paths ignore; BindingsRead path]))) ∧
  (r1.1 = true → r2.1 = true →
     let generated := Bindings_generateDefaults r2.2 in
     configure env argv m =
       leave (statements_after_bindings env vm
                (mkMachine (Some home) generated
                   (trace m ++ [ConfigRead paths ignore; BindingsRead path;
                                GenerateDefaults]))) ∧
     ∃ rest,
       trace (configure env argv m).2 =
         trace m ++
         [ConfigRead paths ignore; BindingsRead path; GenerateDefaults;
          CreateDirectory (ncmpcpp_directory (Config generated))] ++ rest).
Proof.
  intros E Hhelp Hversion Hhome.
  pose proof (configure_through_bindings env argv m vm home E Hhelp Hversion Hhome) as Hrun.
  pose proof (configure_after_bindings env argv m vm home E Hhelp Hversion Hhome) as Hgo.
  cbn zeta in *.
  destruct (Config_read _ _ (globals m)) as [[] g1]; cbn [fst snd] in *.
  2: { by repeat split. }
  destruct (Bindings_read _ g1) as [[] g2]; cbn [fst snd] in *.
  2: { by repeat split. }
  split; [done|]. split; [done|]. intros _ _.
  specialize (Hgo eq_refl eq_refl). split; [exact Hgo|].
  rewrite Hgo.
  match goal with |- context [ statements_after_bindings env vm ?m3 ] =>
    destruct (statements_after_bindings_trace env vm m3) as [rest Hrest]
  end.
  exists rest. rewrite Hrest. cbn [trace globals]. by rewrite <- app_assoc.
Qed.

(** C7.  With the command line parsed, neither switch given, HOME set and
    the configuration read, [Bindings.read] is called next, and the path
    it is given is: when [--bindings] was left at its default, the
    directory [Config.ncmpcpp_directory] as the configuration read left
    it, followed by [bindings]; when [--bindings] was given, its value
    passed through [expand_home]. *)
Theorem bindings_path_resolution env argv m vm home :
  parse_command_line (default_config_paths env) argv = Value vm →
  vm_help vm = false →
  vm_version vm = false →
  env !! "HOME" = Some home →
  let paths := replace_home home <$> vm_config vm in
  let ignore := vm_ignore_config_errors vm in
  let r1 := Config_read paths ignore (globals m) in
  r1.1 = true →
  ∃ path rest,
    trace (configure env argv m).2 =
      trace m ++ [ConfigRead paths ignore; BindingsRead path] ++ rest ∧
    if vm_bindings_defaulted vm
    then path = ncmpcpp_directory (Config r1.2) +:+ "bindings"
    else expand_home (Some home) (vm_bindings vm) = Some path.
Proof.
  intros E Hhelp Hversion Hhome.
  pose proof (configure_through_bindings env argv m vm home E Hhelp Hversion Hhome) as Hrun.
  cbn zeta in *. intros Hok. rewrite Hok in Hrun.
  exists (resolved_bindings_path home vm
            (Config_read (replace_home home <$> vm_config vm)
               (vm_ignore_config_errors vm) (globals m)).2).
  destruct (Bindings_read _ _) as [[] g2]; cbn [fst snd] in Hrun.
  - destruct Hrun as [rest Hrest]. exists (GenerateDefaults :: rest).
    split; [exact Hrest|]. unfold resolved_bindings_path.
    by destruct (vm_bindings_defaulted vm).
  - exists []. rewrite Hrun. split; [done|]. unfold resolved_bindings_path.
    by destruct (vm_bindings_defaulted vm).
Qed.

(** *** The order of the calls *)



(** *** The screen checks *)

Lemma custom_startup_screen_recognized vm m :
  recognized (vm_screen vm) = true →
  ∃ m1, custom_startup_screen vm m = (Next tt, m1) ∧
        trace m1 = trace m ∧ Mpd (globals m1) = Mpd (globals m).
Proof.
  intros Hrec. rewrite custom_startup_screen_eq.
  destruct (vm_screen vm) as [screen|]; [|by eauto].
  cbn in Hrec. apply negb_true_iff in Hrec. cbn zeta. rewrite Hrec. by eauto.
Qed.

Lemma custom_startup_slave_screen_recognized vm m :
  recognized (vm_slave_screen vm) = true →
  ∃ m1, custom_startup_slave_screen vm m = (Next tt, m1) ∧
        trace m1 = trace m ∧ Mpd (globals m1) = Mpd (globals m).
Proof.
  intros Hrec. rewrite custom_startup_slave_screen_eq.
  destruct (vm_slave_screen vm) as [screen|]; [|by eauto].
  cbn in Hrec. apply negb_true_iff in Hrec. cbn zeta. rewrite Hrec. by eauto.
Qed.

(** C6.  Let the command line be parsed and the statements before the
    screen checks be completed, leaving the machine [m1].  A [--screen]
    name that the table maps to [Unknown] ends the process with status 1
    after the line [Unknown screen: ] followed by the name; with the
    primary screen absent or recognized, a [--slave-screen] name mapped to
    [Unknown] ends it with status 1 after the line [Unknown slave screen: ]
    followed by the name; with both absent or recognized [configure]
    returns [true] and prints nothing. *)
Theorem unknown_screen_is_fatal env argv m vm m1 :
  parse_command_line (default_config_paths env) argv = Value vm →
  startup_until_screens env argv vm m = (Next tt, m1) →
  (∀ screen,
     vm_screen vm = Some screen →
     stringtoStartupScreenType screen = Unknown →
     (configure env argv m).1 = Exited 1 ∧
     trace (configure env argv m).2 =
       trace m1 ++ [Cerr ("Unknown screen: " +:+ screen +:+ nl)]) ∧
  (∀ screen,
     recognized (vm_screen vm) = true →
     vm_slave_screen vm = Some screen →
     stringtoStartupScreenType screen = Unknown →
     (configure env argv m).1 = Exited 1 ∧
     trace (configure env argv m).2 =
       trace m1 ++ [Cerr ("Unknown slave screen: " +:+ screen +:+ nl)]) ∧
  (recognized (vm_screen vm) = true →
   recognized (vm_slave_screen vm) = true →
   (configure env argv m).1 = Returned true ∧
   trace (configure env argv m).2 = trace m1).
Proof.
  intros E Hm1.
  rewrite configure_eq, (try_block_until_screens _ _ _ vm) by done.
  rewrite (bind_next _ _ _ _ _ Hm1).
  split; [|split].
  - intros screen Hscreen Hunknown.
    rewrite bind_unfold, custom_startup_screen_eq, Hscreen. cbn zeta.
    rewrite Hunknown. by rewrite bool_decide_eq_true_2.
  - intros screen Hrec Hscreen Hunknown.
    destruct (custom_startup_screen_recognized vm m1 Hrec) as (m2 & Hm2 & <- & _).
    rewrite bind_unfold, Hm2, custom_startup_slave_screen_eq, Hscreen. cbn zeta.
    rewrite Hunknown. by rewrite bool_decide_eq_true_2.
  - intros Hrec Hslave.
    destruct (custom_startup_screen_recognized vm m1 Hrec) as (m2 & Hm2 & <- & _).
    rewrite bind_unfold, Hm2.
    by destruct (custom_startup_slave_screen_recognized vm m2 Hslave) as (m3 & -> & <- & _).
Qed.

(** *** The connection details *)

Lemma port_command_line_details vm c :
  port (command_line_details vm c) = if vm_port_defaulted vm then port c else vm_port vm.
Proof.
  unfold command_line_details. by destruct (vm_host_defaulted vm), (vm_port_defaulted vm).
Qed.

Lemma hostname_command_line_details vm c :
  hostname (command_line_details vm c) =
    if vm_host_defaulted vm then hostname c else vm_host vm.
Proof.
  unfold command_line_details. by destruct (vm_host_defaulted vm), (vm_port_defaulted vm).
Qed.

Lemma hostname_environment_host env c :
  hostname (environment_host env c) = default (hostname c) (env !! "MPD_HOST").
Proof. unfold environment_host, getenv. by destruct (env !! "MPD_HOST"). Qed.

(** The connection after [connection_details] has run to its end: the
    command-line overlay on top of a connection [c] that carries what the
    environment gave. *)
Lemma connection_details_next env vm m m1 :
  connection_details env vm m = (Next tt, m1) →
  trace m1 = trace m ∧
  ∃ c t,
    Mpd (globals m1) = SetTimeout t (command_line_details vm c) ∧
    hostname c = default (hostname (Mpd (globals m))) (env !! "MPD_HOST") ∧
    match env !! "MPD_PORT" with
    | Some text => lexical_cast_int text = Value (port c)
    | None => port c = port (Mpd (globals m))
    end.
Proof.
  rewrite connection_details_eq. cbn zeta. intros Hrun.
  destruct (env !! "MPD_PORT") as [text|].
  - destruct (lexical_cast_int text) as [p|what]; [|done].
    injection Hrun as <-. split; [done|]. eexists _, _. split; [done|].
    by rewrite <- hostname_environment_host.
  - injection Hrun as <-. split; [done|]. eexists _, _. split; [done|].
    rewrite <- hostname_environment_host. split; [done|].
    unfold environment_host. by destruct (getenv env "MPD_HOST").
Qed.

Lemma connection_details_flow env vm m f m1 :
  connection_details env vm m = (f, m1) → f = Next tt ∨ ∃ what, f = Throw what.
Proof.
  rewrite connection_details_eq. cbn zeta. intros Hrun.
  destruct (env !! "MPD_PORT") as [text|]; [|injection Hrun as <- _; by left].
  destruct (lexical_cast_int text); injection Hrun as <- _; by eauto.
Qed.

Lemma custom_startup_screen_flow vm m f m1 :
  custom_startup_screen vm m = (f, m1) →
  f = Exit 1 ∨ (f = Next tt ∧ Mpd (globals m1) = Mpd (globals m)).
Proof.
  rewrite custom_startup_screen_eq. intros Hrun.
  destruct (vm_screen vm); cbn zeta in Hrun;
    [case_bool_decide|]; injection Hrun as <- <-; by eauto.
Qed.

Lemma custom_startup_slave_screen_flow vm m f m1 :
  custom_startup_slave_screen vm m = (f, m1) →
  f = Exit 1 ∨ (f = Next tt ∧ Mpd (globals m1) = Mpd (globals m)).
Proof.
  rewrite custom_startup_slave_screen_eq. intros Hrun.
  destruct (vm_slave_screen vm); cbn zeta in Hrun;
    [case_bool_decide|]; injection Hrun as <- <-; by eauto.
Qed.

(** A run that returns [true] has gone through [connection_details], and
    the connection is not touched afterwards. *)
Lemma configure_returned_true env argv m vm m' :
  parse_command_line (default_config_paths env) argv = Value vm →
  configure env argv m = (Returned true, m') →
  ∃ m0 m1,
    connection_details env vm m0 = (Next tt, m1) ∧
    Mpd (globals m') = Mpd (globals m1).
Proof.
  intros E Hrun.
  destruct (vm_help vm) eqn:Hhelp.
  { by rewrite (configure_help _ _ _ vm) in Hrun. }
  destruct (vm_version vm) eqn:Hversion.
  { by rewrite (configure_version _ _ _ vm) in Hrun. }
  destruct (env !! "HOME") as [home|] eqn:Hhome.
  2: { by rewrite (configure_home_absent _ _ _ vm) in Hrun. }
  rewrite configure_eq, (try_block_parsed _ _ _ vm) in Hrun by done.
  rewrite (startup_through_bindings _ _ _ _ home) in Hrun by done.
  cbn zeta in Hrun.
  destruct (Config_read _ _ (globals m)) as [[] g1]; cbn [fst snd] in Hrun; [|done].
  destruct (Bindings_read _ g1) as [[] g2]; cbn [fst snd] in Hrun; [|done].
  rewrite bind_unfold, create_directories_eq in Hrun.
  cbn [globals env_home trace] in Hrun. cbn zeta in Hrun.
  destruct (create_directory _ (Bindings_generateDefaults g2)) as [g3|]; [|done].
  destruct (create_directory _ g3) as [g4|]; [|done].
  rewrite bind_unfold in Hrun.
  match type of Hrun with context [connection_details env vm ?m0] =>
    destruct (connection_details env vm m0) as [f m1] eqn:Hconn; exists m0, m1
  end.
  destruct (connection_details_flow _ _ _ _ _ Hconn) as [->|[what ->]]; [|done].
  split; [done|].
  rewrite bind_unfold in Hrun.
  destruct (custom_startup_screen vm m1) as [f m2] eqn:Hscreen.
  destruct (custom_startup_screen_flow _ _ _ _ Hscreen) as [->|[-> <-]]; [done|].
  destruct (custom_startup_slave_screen vm m2) as [f m3] eqn:Hslave.
  destruct (custom_startup_slave_screen_flow _ _ _ _ Hslave) as [->|[-> <-]]; [done|].
  by injection Hrun as <-.
Qed.

(** C1.  In a run of [configure] that returns [true], with the command
    line parsed to [vm]: a port given on the command line is the port of
    the connection, and so is a host given there, whatever MPD_PORT,
    MPD_HOST and the configuration files say; with the port left at its
    default and MPD_PORT set, the port of the connection is the number
    MPD_PORT spells, and with the host left at its default and MPD_HOST set
    the host is the value of MPD_HOST, whatever the configuration files
    produced. *)
Theorem connection_details_precedence env argv m vm m' :
  parse_command_line (default_config_paths env) argv = Value vm →
  configure env argv m = (Returned true, m') →
  (vm_port_defaulted vm = false → port (Mpd (globals m')) = vm_port vm) ∧
  (vm_host_defaulted vm = false → hostname (Mpd (globals m')) = vm_host vm) ∧
  (vm_port_defaulted vm = true →
   ∀ text, env !! "MPD_PORT" = Some text →
     lexical_cast_int text = Value (port (Mpd (globals m')))) ∧
  (vm_host_defaulted vm = true →
   ∀ host, env !! "MPD_HOST" = Some host → hostname (Mpd (globals m')) = host).
Proof.
  intros E Hrun.
  destruct (configure_returned_true _ _ _ _ _ E Hrun) as (m0 & m1 & Hconn & ->).
  destruct (connection_details_next _ _ _ _ Hconn) as (_ & c & t & -> & Hhost & Hport).
  cbn [port hostname SetTimeout].
  rewrite port_command_line_details, hostname_command_line_details.
  repeat split.
  - by intros ->.
  - by intros ->.
  - intros -> text Htext. by rewrite Htext in Hport.
  - intros -> host Hhost'. by rewrite Hhost' in Hhost.
Qed.

(** ** Further properties of the start-up sequence *)

Lemma try_block_until_directories env argv m vm :
  parse_command_line (default_config_paths env) argv = Value vm →
  try_block env argv m =
    (startup_until_directories env argv vm;;
     create_directories;;
     connection_details env vm;;
     custom_startup_screen vm;;
     custom_startup_slave_screen vm) m.
Proof.
  intros E. rewrite (try_block_parsed _ _ _ vm) by done.
  unfold startup_until_directories. symmetry.
  do 3 (rewrite bind_assoc; apply bind_congr; intros [] ? _).
  done.
Qed.

Lemma try_block_until_connection env argv m vm :
  parse_command_line (default_config_paths env) argv = Value vm →
  try_block env argv m =
    (startup_until_connection env argv vm;;
     connection_details env vm;;
     custom_startup_screen vm;;
     custom_startup_slave_screen vm) m.
Proof.
  intros E. rewrite (try_block_parsed _ _ _ vm) by done.
  unfold startup_until_connection. symmetry.
  do 4 (rewrite bind_assoc; apply bind_congr; intros [] ? _).
  done.
Qed.

(** X3.  An exception from the parsing of the command line ends the
    process with status 1 after the one line [Error while processing
    configuration: ] with the exception's text; HOME has not been looked
    at, the shared objects are untouched and no collaborator was called. *)
Theorem command_line_error_is_fatal env argv m what :
  parse_command_line (default_config_paths env) argv = Raises what →
  configure env argv m =
    (Exited 1,
     mkMachine (env_home m) (globals m)
       (trace m ++ [Cerr ("Error while processing configuration: " +:+ what +:+ nl)])) ∧
  exit_status (configure env argv m).1 = Some 1.
Proof.
  intros E. by rewrite (configure_parse_error _ _ _ what).
Qed.

(** X4.  Let the statements before the creation of the directories be
    completed, leaving the machine [m1].  When [create_directory] throws
    on the main directory the lyrics directory is not attempted, and when
    it throws on the lyrics directory the main one has been created; in
    both cases the exception's text is printed by the handler and the
    process exits with status 1. *)
Theorem directory_creation_failure_is_fatal env argv m vm m1 what :
  parse_command_line (default_config_paths env) argv = Value vm →
  startup_until_directories env argv vm m = (Next tt, m1) →
  let first := ncmpcpp_directory (Config (globals m1)) in
  (create_directory first (globals m1) = Raises what →
   configure env argv m =
     (Exited 1, logged m1 [CreateDirectory first; catch_diagnostic what])) ∧
  (∀ g1,
     create_directory first (globals m1) = Value g1 →
     create_directory (lyrics_directory (Config g1)) g1 = Raises what →
     configure env argv m =
       (Exited 1,
        mkMachine (env_home m1) g1
          (trace m1 ++ [CreateDirectory first;
                        CreateDirectory (lyrics_directory (Config g1));
                        catch_diagnostic what]))).
Proof.
  intros E Hm1. cbn zeta.
  rewrite configure_eq, (try_block_until_directories _ _ _ vm) by done.
  rewrite (bind_next _ _ _ _ _ Hm1), bind_unfold, create_directories_eq. cbn zeta.
  split.
  - intros ->. unfold logged. cbn [env_home globals trace]. by rewrite <- app_assoc.
  - intros g1 -> ->. unfold logged. cbn [env_home globals trace]. by rewrite <- app_assoc.
Qed.

(** X5.  Let the statements before the connection details be completed,
    leaving the machine [m1].  When MPD_PORT is set to a text that
    [lexical_cast<int>] rejects, the process exits with status 1 after the
    handler's line, whether or not [--port] was given on the command line;
    the host of MPD_HOST has been stored by then. *)
Theorem malformed_environment_port_is_fatal env argv m vm m1 text what :
  parse_command_line (default_config_paths env) argv = Value vm →
  startup_until_connection env argv vm m = (Next tt, m1) →
  env !! "MPD_PORT" = Some text →
  lexical_cast_int text = Raises what →
  configure env argv m =
    (Exited 1,
     logged (with_Mpd m1 (environment_host env (Mpd (globals m1))))
       [catch_diagnostic what]).
Proof.
  intros E Hm1 Htext Hcast.
  rewrite configure_eq, (try_block_until_connection _ _ _ vm) by done.
  rewrite (bind_next _ _ _ _ _ Hm1), bind_unfold, connection_details_eq. cbn zeta.
  by rewrite Htext, Hcast.
Qed.

(** How the statements before the connection details can end, and what a
    completed run of them has done. *)
Lemma startup_until_connection_cases env argv vm m f m1 :
  startup_until_connection env argv vm m = (f, m1) →
  (f = Return false ∧
   (vm_help vm = true ∨ vm_version vm = true ∨ env !! "HOME" = None)) ∨
  (vm_help vm = false ∧ vm_version vm = false ∧
   ∃ home, env !! "HOME" = Some home ∧ env_home m1 = Some home ∧
     (f = Exit 1 ∨ (∃ what, f = Throw what) ∨
      (f = Next tt ∧
       ∃ path first second,
         trace m1 =
           trace m ++
           [ConfigRead (replace_home home <$> vm_config vm) (vm_ignore_config_errors vm);
            BindingsRead path; GenerateDefaults;
            CreateDirectory first; CreateDirectory second]))).
Proof.
  unfold startup_until_connection. intros Hrun.
  destruct (vm_help vm) eqn:Hhelp.
  { rewrite bind_unfold, help_and_version_eq, Hhelp in Hrun.
    injection Hrun as <- _. left. by eauto. }
  destruct (vm_version vm) eqn:Hversion.
  { rewrite bind_unfold, help_and_version_eq, Hhelp, Hversion in Hrun.
    injection Hrun as <- _. left. by eauto. }
  destruct (env !! "HOME") as [home|] eqn:Hhome.
  2: { rewrite bind_unfold, help_and_version_eq, Hhelp, Hversion in Hrun.
       rewrite bind_unfold, get_home_directory_eq, Hhome in Hrun.
       injection Hrun as <- _. left. by eauto. }
  right. split; [done|]. split; [done|]. exists home. split; [done|].
  rewrite (startup_through_bindings _ _ _ _ home) in Hrun by done.
  cbn zeta in Hrun.
  destruct (Config_read _ _ (globals m)) as [[] g1]; cbn [fst snd] in Hrun.
  2: { injection Hrun as <- <-. by eauto. }
  destruct (Bindings_read _ g1) as [[] g2]; cbn [fst snd] in Hrun.
  2: { injection Hrun as <- <-. by eauto. }
  rewrite create_directories_eq in Hrun.
  cbn [env_home globals trace] in Hrun. cbn zeta in Hrun.
  destruct (create_directory _ (Bindings_generateDefaults g2)) as [g3|what].
  2: { injection Hrun as <- <-. by eauto. }
  destruct (create_directory _ g3) as [g4|what]; injection Hrun as <- <-.
  - split; [done|]. right. right. split; [done|].
    eexists _, _, _. cbn [trace]. by rewrite <- app_assoc.
  - by eauto 6.
Qed.

(** X6.  [configure] is left in one of three ways only: it returns [true],
    it returns [false], or the process exits with status 1.  In
    particular the assertion of [expand_home] never fails inside
    [configure], whatever [env_home] held before, and no exception
    escapes it. *)
Theorem configure_outcomes env argv m :
  (configure env argv m).1 = Returned true ∨
  (configure env argv m).1 = Returned false ∨
  (configure env argv m).1 = Exited 1.
Proof.
  destruct (parse_command_line (default_config_paths env) argv) as [vm|what] eqn:E.
  2: { rewrite (configure_parse_error _ _ _ what) by done. by eauto. }
  rewrite configure_eq, (try_block_until_connection _ _ _ vm) by done.
  rewrite bind_unfold.
  destruct (startup_until_connection env argv vm m) as [f m1] eqn:Hm1.
  destruct (startup_until_connection_cases _ _ _ _ _ _ Hm1)
    as [[-> _]|(_ & _ & home & _ & _ & [->|[[what ->]|[-> _]]])]; try by eauto.
  rewrite bind_unfold.
  destruct (connection_details env vm m1) as [f m2] eqn:Hm2.
  destruct (connection_details_flow _ _ _ _ _ Hm2) as [->|[what ->]]; [|by eauto].
  rewrite bind_unfold.
  destruct (custom_startup_screen vm m2) as [f m3] eqn:Hm3.
  destruct (custom_startup_screen_flow _ _ _ _ Hm3) as [->|[-> _]]; [by eauto|].
  destruct (custom_startup_slave_screen vm m3) as [f m4] eqn:Hm4.
  destruct (custom_startup_slave_screen_flow _ _ _ _ Hm4) as [->|[-> _]]; by eauto.
Qed.

(** X7.  [configure] returns [false] exactly when the command line parses
    and either [--help] or [--version] is among its options or HOME is not
    set; every other way of not continuing is an exit with status 1. *)
Theorem returns_false_iff env argv m :
  (configure env argv m).1 = Returned false ↔
  ∃ vm, parse_command_line (default_config_paths env) argv = Value vm ∧
        (vm_help vm = true ∨ vm_version vm = true ∨ env !! "HOME" = None).
Proof.
  split.
  - intros Hrun.
    destruct (parse_command_line (default_config_paths env) argv) as [vm|what] eqn:E.
    2: { by rewrite (configure_parse_error _ _ _ what) in Hrun. }
    exists vm. split; [done|].
    rewrite configure_eq, (try_block_until_connection _ _ _ vm) in Hrun by done.
    rewrite bind_unfold in Hrun.
    destruct (startup_until_connection env argv vm m) as [f m1] eqn:Hm1.
    destruct (startup_until_connection_cases _ _ _ _ _ _ Hm1)
      as [[-> ?]|(_ & _ & home & _ & _ & [->|[[what ->]|[-> _]]])]; try done.
    rewrite bind_unfold in Hrun.
    destruct (connection_details env vm m1) as [f m2] eqn:Hm2.
    destruct (connection_details_flow _ _ _ _ _ Hm2) as [->|[what ->]]; [|done].
    rewrite bind_unfold in Hrun.
    destruct (custom_startup_screen vm m2) as [f m3] eqn:Hm3.
    destruct (custom_startup_screen_flow _ _ _ _ Hm3) as [->|[-> _]]; [done|].
    destruct (custom_startup_slave_screen vm m3) as [f m4] eqn:Hm4.
    by destruct (custom_startup_slave_screen_flow _ _ _ _ Hm4) as [->|[-> _]].
  - intros (vm & E & Hcase).
    destruct (vm_help vm) eqn:Hhelp.
    { by rewrite (configure_help _ _ _ vm). }
    destruct (vm_version vm) eqn:Hversion.
    { by rewrite (configure_version _ _ _ vm). }
    destruct Hcase as [|[|Hhome]]; [done..|].
    by rewrite (configure_home_absent _ _ _ vm).
Qed.

Lemma connection_details_frame env vm m m1 :
  connection_details env vm m = (Next tt, m1) →
  timeout (Mpd (globals m1)) = mpd_connection_timeout (Config (globals m)) ∧
  Config (globals m1) = Config (globals m) ∧
  outside (globals m1) = outside (globals m) ∧
  env_home m1 = env_home m.
Proof.
  rewrite connection_details_eq. cbn zeta. intros Hrun.
  destruct (env !! "MPD_PORT") as [text|]; [destruct (lexical_cast_int text); [|done]|];
    by injection Hrun as <-.
Qed.

Lemma custom_startup_screen_next vm m m1 :
  custom_startup_screen vm m = (Next tt, m1) →
  m1 = match vm_screen vm with
       | Some screen =>
           with_Config m
             (set_startup_screen_type (stringtoStartupScreenType screen) (Config (globals m)))
       | None => m
       end ∧
  ∀ screen, vm_screen vm = Some screen → stringtoStartupScreenType screen ≠ Unknown.
Proof.
  rewrite custom_startup_screen_eq. intros Hrun.
  destruct (vm_screen vm) as [screen|]; cbn zeta in Hrun.
  - case_bool_decide; [done|]. injection Hrun as <-. split; [done|].
    by intros ? [= <-].
  - by injection Hrun as <-.
Qed.

Lemma custom_startup_slave_screen_next vm m m1 :
  custom_startup_slave_screen vm m = (Next tt, m1) →
  m1 = match vm_slave_screen vm with
       | Some screen =>
           with_Config m
             (set_startup_slave_screen_type (stringtoStartupScreenType screen)
                (Config (globals m)))
       | None => m
       end ∧
  ∀ screen, vm_slave_screen vm = Some screen → stringtoStartupScreenType screen ≠ Unknown.
Proof.
  rewrite custom_startup_slave_screen_eq. intros Hrun.
  destruct (vm_slave_screen vm) as [screen|]; cbn zeta in Hrun.
  - case_bool_decide; [done|]. injection Hrun as <-. split; [done|].
    by intros ? [= <-].
  - by injection Hrun as <-.
Qed.

(** A run that returns [true] has completed every group of statements. *)
Lemma configure_true_inv env argv m m' :
  configure env argv m = (Returned true, m') →
  ∃ vm m1 m2 m3,
    parse_command_line (default_config_paths env) argv = Value vm ∧
    startup_until_connection env argv vm m = (Next tt, m1) ∧
    connection_details env vm m1 = (Next tt, m2) ∧
    custom_startup_screen vm m2 = (Next tt, m3) ∧
    custom_startup_slave_screen vm m3 = (Next tt, m').
Proof.
  intros Hrun.
  destruct (parse_command_line (default_config_paths env) argv) as [vm|what] eqn:E.
  2: { by rewrite (configure_parse_error _ _ _ what) in Hrun. }
  exists vm.
  rewrite configure_eq, (try_block_until_connection _ _ _ vm) in Hrun by done.
  rewrite bind_unfold in Hrun.
  destruct (startup_until_connection env argv vm m) as [f m1] eqn:Hm1.
  destruct (startup_until_connection_cases _ _ _ _ _ _ Hm1)
    as [[-> ?]|(_ & _ & home & _ & _ & [->|[[what ->]|[-> _]]])]; try done.
  rewrite bind_unfold in Hrun.
  destruct (connection_details env vm m1) as [f m2] eqn:Hm2.
  destruct (connection_details_flow _ _ _ _ _ Hm2) as [->|[what ->]]; [|done].
  rewrite bind_unfold in Hrun.
  destruct (custom_startup_screen vm m2) as [f m3] eqn:Hm3.
  destruct (custom_startup_screen_flow _ _ _ _ Hm3) as [->|[-> _]]; [done|].
  destruct (custom_startup_slave_screen vm m3) as [f m4] eqn:Hm4.
  destruct (custom_startup_slave_screen_flow _ _ _ _ Hm4) as [->|[-> _]]; [done|].
  injection Hrun as <-. by eauto 10.
Qed.

Lemma custom_startup_screen_frame vm m m1 :
  custom_startup_screen vm m = (Next tt, m1) →
  env_home m1 = env_home m ∧ trace m1 = trace m ∧
  Mpd (globals m1) = Mpd (globals m) ∧
  mpd_connection_timeout (Config (globals m1)) =
    mpd_connection_timeout (Config (globals m)) ∧
  startup_slave_screen_type (Config (globals m1)) =
    startup_slave_screen_type (Config (globals m)).
Proof.
  intros Hrun. destruct (custom_startup_screen_next _ _ _ Hrun) as [-> _].
  by destruct (vm_screen vm).
Qed.

Lemma custom_startup_slave_screen_frame vm m m1 :
  custom_startup_slave_screen vm m = (Next tt, m1) →
  env_home m1 = env_home m ∧ trace m1 = trace m ∧
  Mpd (globals m1) = Mpd (globals m) ∧
  mpd_connection_timeout (Config (globals m1)) =
    mpd_connection_timeout (Config (globals m)) ∧
  startup_screen_type (Config (globals m1)) =
    startup_screen_type (Config (globals m)).
Proof.
  intros Hrun. destruct (custom_startup_slave_screen_next _ _ _ Hrun) as [-> _].
  by destruct (vm_slave_screen vm).
Qed.

(** X8.  When [configure] returns [true] the file-level [env_home] holds
    the value of HOME, so that every later call of [expand_home] passes its
    assertion. *)
Theorem env_home_set_on_success env argv m m' :
  configure env argv m = (Returned true, m') →
  env_home m' = env !! "HOME" ∧
  ∀ path, is_Some (expand_home (env_home m') path).
Proof.
  intros Hrun.
  destruct (configure_true_inv _ _ _ _ Hrun) as (vm & m1 & m2 & m3 & _ & Hm1 & Hm2 & Hm3 & Hm4).
  destruct (startup_until_connection_cases _ _ _ _ _ _ Hm1)
    as [[? _]|(_ & _ & home & Hhome & Hhome1 & _)]; [done|].
  destruct (connection_details_frame _ _ _ _ Hm2) as (_ & _ & _ & Hhome2).
  destruct (custom_startup_screen_frame _ _ _ Hm3) as (Hhome3 & _).
  destruct (custom_startup_slave_screen_frame _ _ _ Hm4) as (Hhome4 & _).
  assert (env_home m' = Some home) as Hset by congruence.
  split; [congruence|]. intros path. rewrite Hset. by eexists.
Qed.

(** X10.  When [configure] returns [true], the timeout of the connection
    is the [mpd_connection_timeout] of the configuration, and a screen
    named by [--screen] or [--slave-screen] is stored in the configuration
    as the identifier the name table gives for it, which is not
    [Unknown]. *)
Theorem timeout_and_screens_on_success env argv m vm m' :
  parse_command_line (default_config_paths env) argv = Value vm →
  configure env argv m = (Returned true, m') →
  timeout (Mpd (globals m')) = mpd_connection_timeout (Config (globals m')) ∧
  (∀ screen, vm_screen vm = Some screen →
     startup_screen_type (Config (globals m')) = stringtoStartupScreenType screen ∧
     stringtoStartupScreenType screen ≠ Unknown) ∧
  (∀ screen, vm_slave_screen vm = Some screen →
     startup_slave_screen_type (Config (globals m')) = stringtoStartupScreenType screen ∧
     stringtoStartupScreenType screen ≠ Unknown).
Proof.
  intros E Hrun.
  destruct (configure_true_inv _ _ _ _ Hrun)
    as (vm' & m1 & m2 & m3 & E' & Hm1 & Hm2 & Hm3 & Hm4).
  assert (vm' = vm) as -> by congruence.
  destruct (connection_details_frame _ _ _ _ Hm2) as (Htimeout & Hconfig & _).
  destruct (custom_startup_screen_frame _ _ _ Hm3) as (_ & _ & Hmpd3 & Ht3 & _).
  destruct (custom_startup_slave_screen_frame _ _ _ Hm4) as (_ & _ & Hmpd4 & Ht4 & Hs4).
  destruct (custom_startup_screen_next _ _ _ Hm3) as [Hm3' Hknown].
  destruct (custom_startup_slave_screen_next _ _ _ Hm4) as [Hm4' Hslave].
  split; [|split].
  - rewrite Hmpd4, Hmpd3, Htimeout, Ht4, Ht3. by rewrite Hconfig.
  - intros screen Hscreen. split; [|by apply Hknown].
    rewrite Hs4, Hm3', Hscreen. done.
  - intros screen Hscreen. split; [|by apply Hslave].
    rewrite Hm4', Hscreen. done.
Qed.

(** X11.  A run of [configure] that returns [true] has printed nothing
    and has made exactly five calls, in this order: the configuration is
    read, the bindings are read, the default bindings are generated, and
    the two directories are created. *)
Theorem calls_of_a_successful_run env argv m m' :
  configure env argv m = (Returned true, m') →
  ∃ paths ignore path first second,
    trace m' =
      trace m ++
      [ConfigRead paths ignore; BindingsRead path; GenerateDefaults;
       CreateDirectory first; CreateDirectory second].
Proof.
  intros Hrun.
  destruct (configure_true_inv _ _ _ _ Hrun) as (vm & m1 & m2 & m3 & _ & Hm1 & Hm2 & Hm3 & Hm4).
  destruct (startup_until_connection_cases _ _ _ _ _ _ Hm1)
    as [[? _]|(_ & _ & home & _ & _ & [?|[[? ?]|[_ (path & first & second & Htrace)]]])];
    try done.
  destruct (connection_details_next _ _ _ _ Hm2) as (Ht2 & _).
  destruct (custom_startup_screen_frame _ _ _ Hm3) as (_ & Ht3 & _).
  destruct (custom_startup_slave_screen_frame _ _ _ Hm4) as (_ & Ht4 & _).
  eexists _, _, path, first, second. by rewrite Ht4, Ht3, Ht2, Htrace.
Qed.

(** X12.  [connection_details], when it runs to its end, changes nothing
    but the connection, and of the connection it leaves the port as it
    found it when [--port] is at its default and MPD_PORT is unset, and
    the host as it found it when [--host] is at its default and MPD_HOST
    is unset: what the configuration files produced stays. *)
Theorem connection_kept_without_overrides env vm m m1 :
  connection_details env vm m = (Next tt, m1) →
  (vm_port_defaulted vm = true → env !! "MPD_PORT" = None →
   port (Mpd (globals m1)) = port (Mpd (globals m))) ∧
  (vm_host_defaulted vm = true → env !! "MPD_HOST" = None →
   hostname (Mpd (globals m1)) = hostname (Mpd (globals m))) ∧
  Config (globals m1) = Config (globals m) ∧
  outside (globals m1) = outside (globals m) ∧
  trace m1 = trace m ∧
  env_home m1 = env_home m.
Proof.
  intros Hrun.
  destruct (connection_details_next _ _ _ _ Hrun) as (Htrace & c & t & Hmpd & Hhost & Hport).
  destruct (connection_details_frame _ _ _ _ Hrun) as (_ & Hconfig & Houtside & Hhome).
  rewrite Hmpd. cbn [port hostname SetTimeout].
  rewrite port_command_line_details, hostname_command_line_details.
  repeat split; try done.
  - intros -> Henv. by rewrite Henv in Hport.
  - intros -> Henv. by rewrite Henv in Hhost.
Qed.

Lemma emits_only_bind {A B} P (c : @Proc Outside A) (k : A → @Proc Outside B) :
  emits_only P c → (∀ a, emits_only P (k a)) → emits_only P (c ≫= k).
Proof.
  intros Hc Hk m r m' E. rewrite bind_unfold in E.
  destruct (c m) as [f m1] eqn:Ec. destruct (Hc _ _ _ Ec) as (evs & Hevs & HP).
  destruct f; try (injection E as <- <-; by eauto).
  destruct (Hk _ _ _ _ E) as (evs' & Hevs' & HP').
  exists (evs ++ evs'). split; [by rewrite Hevs', Hevs, app_assoc|].
  by apply Forall_app.
Qed.

Lemma emits_only_after_bindings P env vm :
  (∀ path, P (CreateDirectory path)) →
  (∀ text, P (Cerr text)) →
  emits_only P
    (create_directories;; connection_details env vm;;
     custom_startup_screen vm;; custom_startup_slave_screen vm).
Proof.
  intros Hdir Herr.
  apply emits_only_bind; [|intros _; apply emits_only_bind; [|intros _; apply emits_only_bind; [|intros _]]].
  - intros m r m' E. rewrite create_directories_eq in E. cbn zeta in E.
    destruct (create_directory _ (globals m)) as [g1|what].
    + destruct (create_directory _ g1); injection E as <- <-;
        (eexists; split; [done|]; by repeat constructor).
    + injection E as <- <-. eexists. split; [done|]. by repeat constructor.
  - intros m r m' E. exists []. rewrite app_nil_r. split; [|done].
    rewrite connection_details_eq in E. cbn zeta in E.
    destruct (env !! "MPD_PORT") as [text|]; [destruct (lexical_cast_int text)|];
      by injection E as <- <-.
  - intros m r m' E. rewrite custom_startup_screen_eq in E.
    destruct (vm_screen vm); cbn zeta in E;
      [case_bool_decide|]; injection E as <- <-;
      try (exists []; rewrite app_nil_r; by split).
    eexists. split; [done|]. by repeat constructor.
  - intros m r m' E. rewrite custom_startup_slave_screen_eq in E.
    destruct (vm_slave_screen vm); cbn zeta in E;
      [case_bool_decide|]; injection E as <- <-;
      try (exists []; rewrite app_nil_r; by split).
    eexists. split; [done|]. by repeat constructor.
Qed.

(** X9.  With the command line parsed, neither switch given and HOME set,
    the first thing [configure] does to the outside is the one call of
    [Config.read], with every [--config] path passed through [expand_home],
    in the order given, and with the value of [--ignore-config-errors];
    the configuration is not read a second time. *)
Theorem configuration_read_once_and_first env argv m vm home :
  parse_command_line (default_config_paths env) argv = Value vm →
  vm_help vm = false →
  vm_version vm = false →
  env !! "HOME" = Some home →
  ∃ rest,
    trace (configure env argv m).2 =
      trace m ++
      ConfigRead (replace_home home <$> vm_config vm) (vm_ignore_config_errors vm) :: rest ∧
    Forall (λ e, is_ConfigRead e = false) rest.
Proof.
  intros E Hhelp Hversion Hhome.
  rewrite configure_eq, (try_block_parsed _ _ _ vm) by done.
  rewrite (startup_through_bindings _ _ _ _ home) by done. cbn zeta.
  destruct (Config_read _ _ (globals m)) as [[] g1]; cbn [fst snd].
  2: { exists []. by split. }
  destruct (Bindings_read _ g1) as [[] g2]; cbn [fst snd].
  2: { eexists [_]. split; [done|]. by repeat constructor. }
  match goal with |- context [ ?k (mkMachine ?h ?g ?t) ] =>
    destruct (k (mkMachine h g t)) as [f m'] eqn:Ek;
    destruct (emits_only_after_bindings (λ e, is_ConfigRead e = false) env vm
                ltac:(done) ltac:(done) _ _ _ Ek) as (evs & Hevs & HP)
  end.
  cbn [trace] in Hevs.
  assert (Forall (λ e, is_ConfigRead e = false)
            ([BindingsRead (resolved_bindings_path home vm g1); GenerateDefaults] ++ evs))
    as Hrest by (apply Forall_app; split; [by repeat constructor|done]).
  destruct f as [a|b|status|what|]; cbn [snd logged trace];
    try (eexists; split; [by rewrite Hevs, <- app_assoc|exact Hrest]).
  exists (([BindingsRead (resolved_bindings_path home vm g1); GenerateDefaults] ++ evs)
            ++ [catch_diagnostic what]).
  split; [by rewrite Hevs, <- !app_assoc|].
  apply Forall_app. split; [exact Hrest|by repeat constructor].
Qed.





End Properties.

(** ** The statements at concrete inputs *)

Section Examples.

Import Standin.

Let config_paths : list string := default_config_paths home_env.

Example xdg_config_home_unset : xdg_config_home ∅ = "~/.config/".
Proof. vm_compute. reflexivity. Qed.

Example xdg_config_home_adds_separator :
  xdg_config_home {[ "XDG_CONFIG_HOME" := "/etc/xdg" ]} = "/etc/xdg/" ∧
  xdg_config_home {[ "XDG_CONFIG_HOME" := "/etc/xdg/" ]} = "/etc/xdg/" ∧
  xdg_config_home {[ "XDG_CONFIG_HOME" := "" ]} = "".
Proof. repeat split; vm_compute; reflexivity. Qed.

Example default_config_paths_expanded :
  replace_home "/home/u" <$> config_paths =
    ["/home/u/.ncmpcpp/config"; "/home/u/.config/ncmpcpp/config"].
Proof. vm_compute. reflexivity. Qed.

(** C8, the claim as stated does not hold: with HOME set to [~u] the path
    [~/x] expands to [~u/x], and expanding that once more gives [~uu/x];
    with HOME set to the empty string the path [~~] expands to [~], and
    that to the empty path. *)
Lemma expand_home_twice_differs :
  (expand_home (Some "~u") "~/x" = Some "~u/x" ∧
   expand_home (Some "~u") "~u/x" = Some "~uu/x" ∧
   expand_home (Some "~u") "~u/x" ≠ Some "~u/x") ∧
  (expand_home (Some "") "~~" = Some "~" ∧
   expand_home (Some "") "~" = Some "" ∧
   expand_home (Some "") "~" ≠ Some "~").
Proof. repeat split; discriminate. Qed.

Lemma expand_home_idempotent_witness :
  ∃ once, expand_home (Some "/home/u") "~/x" = Some once ∧
          expand_home (Some "/home/u") once = Some once.
Proof.
  apply (proj2 (expand_home_idempotent "/home/u" "~/x")); [discriminate|reflexivity].
Defined.

(** C2, the code at the failing input: with HOME unset [configure] prints
    its diagnostic and reads no file, but it returns [false], as it does
    for [--help], where every other failure calls [exit(1)]; the caller
    then ends the process with the status of a help request. *)
Theorem home_absent_returns_false :
  let m0 := start empty_disk in
  configure ∅ ["ncmpcpp"] m0 =
    (Returned false,
     mkMachine None (globals m0)
       [Cerr ("Fatal error: HOME environment variable is not defined" +:+ nl)]) ∧
  (configure ∅ ["ncmpcpp"] m0).1 = (configure home_env ["ncmpcpp"; "--help"] m0).1 ∧
  exit_status (configure ∅ ["ncmpcpp"] m0).1 = Some 0 ∧
  exit_status (configure ∅ ["ncmpcpp"] m0).1 ≠ Some 1.
Proof.
  cbn zeta.
  rewrite (configure_home_absent ∅ ["ncmpcpp"] _ (defaults (default_config_paths ∅)))
    by reflexivity.
  repeat split. discriminate.
Qed.

(** C4, the claim as stated does not hold: the command line is parsed
    before the switches are looked at, so that with [--help] followed by an
    option the parser does not know, no help text is printed and the
    process exits with status 1. *)
Lemma help_with_rejected_option :
  "--help" ∈ ["ncmpcpp"; "--help"; "--bogus"] ∧
  (configure home_env ["ncmpcpp"; "--help"; "--bogus"] (start empty_disk)).1 = Exited 1 ∧
  exit_status (configure home_env ["ncmpcpp"; "--help"; "--bogus"] (start empty_disk)).1 ≠
    Some 0 ∧
  ∀ text,
    Cout text ∉ trace (configure home_env ["ncmpcpp"; "--help"; "--bogus"]
                         (start empty_disk)).2.
Proof.
  split; [apply list_elem_of_In; cbn; tauto|].
  split; [vm_compute; reflexivity|].
  split; [vm_compute; discriminate|].
  intros text Hin. apply list_elem_of_In in Hin. vm_compute in Hin.
  by destruct Hin as [|[]].
Qed.


Lemma help_or_version_short_circuit_witness :
  configure home_env ["ncmpcpp"; "--port"; "8000"; "--help"] (start port_disk) =
    (Returned false,
     logged (start port_disk)
       [Cout (usage_text ["ncmpcpp"; "--port"; "8000"; "--help"] "Options:")]) ∧
  exit_status
    (configure home_env ["ncmpcpp"; "--port"; "8000"; "--help"] (start port_disk)).1 =
    Some 0.
Proof.
  refine (help_or_version_short_circuit home_env
            ["ncmpcpp"; "--port"; "8000"; "--help"] (start port_disk)
            (with_help (with_port 8000 (defaults config_paths)))
            _ (or_introl _)); vm_compute; reflexivity.
Defined.


(** The two examples of the precedence chain: [--port 8000] with
    MPD_PORT=7000 gives 8000, and MPD_PORT=7000 alone gives 7000 although
    the configuration file sets 6601. *)
Lemma connection_details_precedence_witness :
  port (Mpd (globals
    (configure port_env ["ncmpcpp"; "--port"; "8000"] (start port_disk)).2)) = 8000 ∧
  lexical_cast_int "7000" =
    Value (port (Mpd (globals (configure port_env ["ncmpcpp"] (start port_disk)).2))).
Proof.
  split.
  - refine (proj1
      (connection_details_precedence port_env ["ncmpcpp"; "--port"; "8000"]
         (start port_disk) (with_port 8000 (defaults (default_config_paths port_env)))
         (configure port_env ["ncmpcpp"; "--port"; "8000"] (start port_disk)).2
         _ _) _); vm_compute; reflexivity.
  - refine (proj1 (proj2 (proj2
      (connection_details_precedence port_env ["ncmpcpp"]
         (start port_disk) (defaults (default_config_paths port_env))
         (configure port_env ["ncmpcpp"] (start port_disk)).2
         _ _))) _ "7000" _); vm_compute; reflexivity.
Defined.

(** C3, the claim as stated does not hold: with a bindings file that
    does not load, [Bindings.read] fails, the process exits with status 1
    and no default bindings are generated. *)
Lemma bindings_failure_ends_startup :
  let m0 := start bad_bindings_disk in
  (Bindings_read "/home/u/.ncmpcpp/bindings" (globals m0)).1 = false ∧
  (configure home_env ["ncmpcpp"] m0).1 = Exited 1 ∧
  trace (configure home_env ["ncmpcpp"] m0).2 =
    [ConfigRead ["/home/u/.ncmpcpp/config"; "/home/u/.config/ncmpcpp/config"] false;
     BindingsRead "/home/u/.ncmpcpp/bindings"] ∧
  GenerateDefaults ∉ trace (configure home_env ["ncmpcpp"] m0).2.
Proof.
  cbn zeta. repeat split; try (vm_compute; reflexivity).
  intros Hin. apply list_elem_of_In in Hin. vm_compute in Hin.
  by destruct Hin as [|[|[]]].
Qed.

Lemma reader_failures_are_fatal_witness :
  configure home_env ["ncmpcpp"] (start bad_bindings_disk) =
    (Exited 1,
     mkMachine (Some "/home/u") (globals (start bad_bindings_disk))
       [ConfigRead ["/home/u/.ncmpcpp/config"; "/home/u/.config/ncmpcpp/config"] false;
        BindingsRead "/home/u/.ncmpcpp/bindings"]).
Proof.
  refine (proj1 (proj2
    (reader_failures_are_fatal home_env ["ncmpcpp"] (start bad_bindings_disk)
       (defaults config_paths) "/home/u" _ _ _ _)) _ _);
    vm_compute; reflexivity.
Defined.


Lemma unknown_screen_is_fatal_witness :
  ((configure home_env ["ncmpcpp"; "--screen"; "bogus"] (start empty_disk)).1 =
     Exited 1 ∧
   trace (configure home_env ["ncmpcpp"; "--screen"; "bogus"] (start empty_disk)).2 =
     trace (startup_until_screens home_env ["ncmpcpp"; "--screen"; "bogus"]
              (with_screen "bogus" (defaults config_paths)) (start empty_disk)).2
     ++ [Cerr ("Unknown screen: " +:+ "bogus" +:+ nl)]) ∧
  ((configure home_env ["ncmpcpp"; "--slave-screen"; "bogus"] (start empty_disk)).1 =
     Exited 1 ∧
   trace (configure home_env ["ncmpcpp"; "--slave-screen"; "bogus"] (start empty_disk)).2 =
     trace (startup_until_screens home_env ["ncmpcpp"; "--slave-screen"; "bogus"]
              (with_slave_screen "bogus" (defaults config_paths)) (start empty_disk)).2
     ++ [Cerr ("Unknown slave screen: " +:+ "bogus" +:+ nl)]) ∧
  ((configure home_env ["ncmpcpp"; "--screen"; "playlist"] (start empty_disk)).1 =
     Returned true ∧
   trace (configure home_env ["ncmpcpp"; "--screen"; "playlist"] (start empty_disk)).2 =
     trace (startup_until_screens home_env ["ncmpcpp"; "--screen"; "playlist"]
              (with_screen "playlist" (defaults config_paths)) (start empty_disk)).2).
Proof.
  split; [|split].
  - refine (proj1
      (unknown_screen_is_fatal home_env ["ncmpcpp"; "--screen"; "bogus"]
         (start empty_disk) (with_screen "bogus" (defaults config_paths))
         (startup_until_screens home_env ["ncmpcpp"; "--screen"; "bogus"]
            (with_screen "bogus" (defaults config_paths)) (start empty_disk)).2
         _ _)
      "bogus" _ _); vm_compute; reflexivity.
  - refine (proj1 (proj2
      (unknown_screen_is_fatal home_env ["ncmpcpp"; "--slave-screen"; "bogus"]
         (start empty_disk) (with_slave_screen "bogus" (defaults config_paths))
         (startup_until_screens home_env ["ncmpcpp"; "--slave-screen"; "bogus"]
            (with_slave_screen "bogus" (defaults config_paths)) (start empty_disk)).2
         _ _))
      "bogus" _ _ _); vm_compute; reflexivity.
  - refine (proj2 (proj2
      (unknown_screen_is_fatal home_env ["ncmpcpp"; "--screen"; "playlist"]
         (start empty_disk) (with_screen "playlist" (defaults config_paths))
         (startup_until_screens home_env ["ncmpcpp"; "--screen"; "playlist"]
            (with_screen "playlist" (defaults config_paths)) (start empty_disk)).2
         _ _))
      _ _); vm_compute; reflexivity.
Defined.

(** With [--bindings] left out the path is the configuration directory
    followed by [bindings]; with [--bindings ~/keys] it is the expanded
    [/home/u/keys]. *)
Lemma bindings_path_resolution_witness :
  (∃ path rest,
     trace (configure home_env ["ncmpcpp"] (start empty_disk)).2 =
       trace (start empty_disk) ++
       [ConfigRead (replace_home "/home/u" <$> config_paths) false;
        BindingsRead path] ++ rest ∧
     path = "/home/u/.ncmpcpp/" +:+ "bindings") ∧
  (∃ path rest,
     trace (configure home_env ["ncmpcpp"; "--bindings"; "~/keys"] (start empty_disk)).2 =
       trace (start empty_disk) ++
       [ConfigRead (replace_home "/home/u" <$> config_paths) false;
        BindingsRead path] ++ rest ∧
     expand_home (Some "/home/u") "~/keys" = Some path).
Proof.
  split.
  - refine (bindings_path_resolution home_env ["ncmpcpp"] (start empty_disk)
              (defaults config_paths) "/home/u" _ _ _ _ _);
      vm_compute; reflexivity.
  - refine (bindings_path_resolution home_env ["ncmpcpp"; "--bindings"; "~/keys"]
              (start empty_disk) (with_bindings "~/keys" (defaults config_paths))
              "/home/u" _ _ _ _ _);
      vm_compute; reflexivity.
Defined.

Lemma default_config_paths_after_expansion_witness :
  replace_home "/home/u" <$> default_config_paths ∅ =
    ["/home/u" +:+ "/.ncmpcpp/config"; "/home/u" +:+ "/.config/ncmpcpp/config"] ∧
  replace_home "/home/u" <$> default_config_paths {[ "XDG_CONFIG_HOME" := "/etc/xdg" ]} =
    ["/home/u" +:+ "/.ncmpcpp/config";
     xdg_config_home {[ "XDG_CONFIG_HOME" := "/etc/xdg" ]} +:+ "ncmpcpp/config"].
Proof.
  split.
  - refine (proj1 (default_config_paths_after_expansion ∅ "/home/u") _).
    vm_compute; reflexivity.
  - refine (proj2 (default_config_paths_after_expansion
                     {[ "XDG_CONFIG_HOME" := "/etc/xdg" ]} "/home/u") "/etc/xdg" _ _);
      vm_compute; reflexivity.
Defined.

Lemma command_line_error_is_fatal_witness :
  configure home_env ["ncmpcpp"; "--port"; "abc"] (start empty_disk) =
    (Exited 1,
     mkMachine None (globals (start empty_disk))
       (trace (start empty_disk) ++
        [Cerr ("Error while processing configuration: "
               +:+ "the argument ('abc') for option '--port' is invalid" +:+ nl)])) ∧
  exit_status (configure home_env ["ncmpcpp"; "--port"; "abc"] (start empty_disk)).1 =
    Some 1.
Proof.
  refine (command_line_error_is_fatal home_env ["ncmpcpp"; "--port"; "abc"]
            (start empty_disk) "the argument ('abc') for option '--port' is invalid" _).
  vm_compute; reflexivity.
Defined.

Lemma directory_creation_failure_is_fatal_witness :
  configure home_env ["ncmpcpp"] (start readonly_disk) =
    (Exited 1,
     logged (startup_until_directories home_env ["ncmpcpp"] (defaults config_paths)
               (start readonly_disk)).2
       [CreateDirectory "/home/u/.ncmpcpp/";
        catch_diagnostic "boost::filesystem::create_directory: Permission denied"]).
Proof.
  refine (proj1
    (directory_creation_failure_is_fatal home_env ["ncmpcpp"] (start readonly_disk)
       (defaults config_paths)
       (startup_until_directories home_env ["ncmpcpp"] (defaults config_paths)
          (start readonly_disk)).2
       "boost::filesystem::create_directory: Permission denied" _ _) _);
    vm_compute; reflexivity.
Defined.

(** [--port 8000] does not save a start-up whose MPD_PORT is [abc]. *)
Lemma malformed_environment_port_is_fatal_witness :
  (configure bad_port_env ["ncmpcpp"; "--port"; "8000"] (start empty_disk)).1 = Exited 1.
Proof.
  rewrite (malformed_environment_port_is_fatal bad_port_env
             ["ncmpcpp"; "--port"; "8000"] (start empty_disk)
             (with_port 8000 (defaults (default_config_paths bad_port_env)))
             (startup_until_connection bad_port_env ["ncmpcpp"; "--port"; "8000"]
                (with_port 8000 (defaults (default_config_paths bad_port_env)))
                (start empty_disk)).2
             "abc" "bad lexical cast");
    vm_compute; reflexivity.
Defined.

Lemma env_home_set_on_success_witness :
  env_home (configure home_env ["ncmpcpp"] (start empty_disk)).2 = home_env !! "HOME" ∧
  ∀ path,
    is_Some (expand_home (env_home (configure home_env ["ncmpcpp"] (start empty_disk)).2)
               path).
Proof.
  refine (env_home_set_on_success home_env ["ncmpcpp"] (start empty_disk)
            (configure home_env ["ncmpcpp"] (start empty_disk)).2 _).
  vm_compute; reflexivity.
Defined.

Lemma configuration_read_once_and_first_witness :
  ∃ rest,
    trace (configure home_env ["ncmpcpp"] (start port_disk)).2 =
      trace (start port_disk) ++
      ConfigRead (replace_home "/home/u" <$> vm_config (defaults config_paths))
        (vm_ignore_config_errors (defaults config_paths)) :: rest ∧
    Forall (λ e, is_ConfigRead e = false) rest.
Proof.
  refine (configuration_read_once_and_first home_env ["ncmpcpp"] (start port_disk)
            (defaults config_paths) "/home/u" _ _ _ _);
    vm_compute; reflexivity.
Defined.

Lemma timeout_and_screens_on_success_witness :
  timeout (Mpd (globals
    (configure home_env ["ncmpcpp"; "--screen"; "playlist"] (start empty_disk)).2)) =
  mpd_connection_timeout (Config (globals
    (configure home_env ["ncmpcpp"; "--screen"; "playlist"] (start empty_disk)).2)).
Proof.
  refine (proj1
    (timeout_and_screens_on_success home_env ["ncmpcpp"; "--screen"; "playlist"]
       (start empty_disk) (with_screen "playlist" (defaults config_paths))
       (configure home_env ["ncmpcpp"; "--screen"; "playlist"] (start empty_disk)).2
       _ _));
    vm_compute; reflexivity.
Defined.

Lemma calls_of_a_successful_run_witness :
  ∃ paths ignore path first second,
    trace (configure port_env ["ncmpcpp"] (start port_disk)).2 =
      trace (start port_disk) ++
      [ConfigRead paths ignore; BindingsRead path; GenerateDefaults;
       CreateDirectory first; CreateDirectory second].
Proof.
  refine (calls_of_a_successful_run port_env ["ncmpcpp"] (start port_disk)
            (configure port_env ["ncmpcpp"] (start port_disk)).2 _).
  vm_compute; reflexivity.
Defined.

Lemma connection_kept_without_overrides_witness :
  port (Mpd (globals
    (connection_details home_env (defaults config_paths) (start port_disk)).2)) =
  port (Mpd (globals (start port_disk))).
Proof.
  refine (proj1
    (connection_kept_without_overrides home_env (defaults config_paths)
       (start port_disk)
       (connection_details home_env (defaults config_paths) (start port_disk)).2 _)
    _ _);
    vm_compute; reflexivity.
Defined.

End Examples.
